(** * GCSample: the allocation fast path and the write barrier

    A shallow embedding of [src/gc/sample/GCSample.cpp]: the functions
    [AllocateObject], [ErectWriteBarrier] and [WriteBarrier], the macros
    [card_byte_shift] and [card_byte], and the part of the process state
    they read and write.

    Pointers and [size_t] values are machine words of [ptr_bits] bits,
    represented by [Z]; pointer addition wraps around modulo
    [2 ^ ptr_bits].  The collector ([GCHeap::Alloc]) is an external
    collaborator: it is a parameter of the development. *)

From Stdlib Require Import ZArith List Bool Lia Sorted.
Import ListNotations.
Local Open Scope Z_scope.

(** ** Plain data *)

(** [alloc_context]: the two fields of the per-thread allocation context
    that the sample touches. *)
Record alloc_context : Type := mk_alloc_context {
  alloc_ptr : Z;
  alloc_limit : Z
}.

(** A [MethodTable *] is represented by the descriptor it points to,
    together with the address at which that descriptor lives
    ([mt_address] is the value of the pointer itself). *)
Record MethodTable : Type := mk_MethodTable {
  mt_address : Z;
  m_baseSize : Z;
  m_componentSize : Z;
  m_flags : Z
}.

(** Modelled from the spec: [MethodTable::GetBaseSize] is declared outside
    the sample (gcenv.h); the descriptor's [baseSize] is the "total byte
    size of a fixed-layout instance", which [main] stores in
    [m_baseSize]. *)
Definition GetBaseSize (pMT : MethodTable) : Z := m_baseSize pMT.

(** Observable actions of the two fast paths, in program order. *)
Inductive event : Type :=
| EvSlowAlloc (ctx : alloc_context) (size flags : Z)
| EvStoreRef (addr val : Z)
| EvLoadByte (addr : Z)
| EvStoreByte (addr val : Z).

Definition nullptr : Z := 0.

(** Single-cell update of a memory seen as a function of the address. *)
Definition upd (m : Z -> Z) (a v : Z) : Z -> Z :=
  fun x => if x =? a then v else m x.

(** The calls to the collector's slow path found in a trace, with the
    allocation context each one received. *)
Definition slow_calls (t : list event) : list (alloc_context * Z * Z) :=
  flat_map (fun e => match e with
                     | EvSlowAlloc c s f => [(c, s, f)]
                     | _ => []
                     end) t.

(** The stores to pointer-sized cells found in a trace. *)
Definition ref_stores (t : list event) : list (Z * Z) :=
  flat_map (fun e => match e with
                     | EvStoreRef a v => [(a, v)]
                     | _ => []
                     end) t.

(** The stores to [BYTE] cells found in a trace. *)
Definition byte_stores (t : list event) : list (Z * Z) :=
  flat_map (fun e => match e with
                     | EvStoreByte a v => [(a, v)]
                     | _ => []
                     end) t.

(** ** Process state

    The globals the barrier reads, the current thread's allocation
    context, and memory.  Memory is typed: [ref_mem] holds the
    pointer-sized cells of object memory (object headers and reference
    fields), [byte_mem] holds the [BYTE] cells on which the card table
    lives.  The collector allocates the card table apart from the object
    heap, so the two never share a cell.  [gc_state] is the private state
    of the collector, opaque to the sample. *)
Record world (GCState : Type) : Type := mk_world {
  acontext : alloc_context;
  g_lowest_address : Z;
  g_highest_address : Z;
  g_ephemeral_low : Z;
  g_ephemeral_high : Z;
  g_card_table : Z;
  ref_mem : Z -> Z;
  byte_mem : Z -> Z;
  gc_state : GCState
}.

Arguments mk_world {GCState}.
Arguments acontext {GCState}.
Arguments g_lowest_address {GCState}.
Arguments g_highest_address {GCState}.
Arguments g_ephemeral_low {GCState}.
Arguments g_ephemeral_high {GCState}.
Arguments g_card_table {GCState}.
Arguments ref_mem {GCState}.
Arguments byte_mem {GCState}.
Arguments gc_state {GCState}.

(** Build configuration: is the macro [_WIN64] defined?  In this code base
    it is defined exactly on the 64-bit targets. *)
Class BuildConfig : Type := { WIN64 : bool }.

(** The interface [GCHeap] as far as the sample uses it:
    [Alloc(acontext, size, flags)] is the slow allocation path of the
    external heap.  It may replace the allocation context, move objects,
    regrow the card table; it returns the new object or [nullptr]. *)
Class GCHeap (GCState : Type) : Type := {
  Alloc : world GCState -> Z -> Z -> Z * world GCState
}.

(** ** A state monad that records the actions performed *)

Section Monad.

Context {GCState : Type}.

Definition with_acontext (w : world GCState) (c : alloc_context) : world GCState :=
  mk_world c (g_lowest_address w) (g_highest_address w)
           (g_ephemeral_low w) (g_ephemeral_high w) (g_card_table w)
           (ref_mem w) (byte_mem w) (gc_state w).

Definition with_ref_mem (w : world GCState) (m : Z -> Z) : world GCState :=
  mk_world (acontext w) (g_lowest_address w) (g_highest_address w)
           (g_ephemeral_low w) (g_ephemeral_high w) (g_card_table w)
           m (byte_mem w) (gc_state w).

Definition with_byte_mem (w : world GCState) (m : Z -> Z) : world GCState :=
  mk_world (acontext w) (g_lowest_address w) (g_highest_address w)
           (g_ephemeral_low w) (g_ephemeral_high w) (g_card_table w)
           (ref_mem w) m (gc_state w).

Definition M (A : Type) : Type := world GCState -> A * world GCState * list event.

Definition ret {A : Type} (a : A) : M A := fun w => (a, w, []).

Definition bind {A B : Type} (m : M A) (k : A -> M B) : M B :=
  fun w =>
    let '(a, w1, t1) := m w in
    let '(b, w2, t2) := k a w1 in
    (b, w2, t1 ++ t2).

Definition value_of {A : Type} (r : A * world GCState * list event) : A :=
  fst (fst r).

Definition world_of {A : Type} (r : A * world GCState * list event) : world GCState :=
  snd (fst r).

Definition trace_of {A : Type} (r : A * world GCState * list event) : list event :=
  snd r.

(** Reading a global or a field of the state. *)
Definition read {A : Type} (f : world GCState -> A) : M A := fun w => (f w, w, []).

(** [acontext->alloc_ptr = v] *)
Definition set_alloc_ptr (v : Z) : M unit :=
  fun w => (tt, with_acontext w (mk_alloc_context v (alloc_limit (acontext w))), []).

(** [*addr = v] for a pointer-sized cell. *)
Definition store_ref (addr v : Z) : M unit :=
  fun w => (tt, with_ref_mem w (upd (ref_mem w) addr v), [EvStoreRef addr v]).

(** [*addr] for a [BYTE] cell. *)
Definition load_byte (addr : Z) : M Z :=
  fun w => (byte_mem w addr, w, [EvLoadByte addr]).

(** [*addr = v] for a [BYTE] cell. *)
Definition store_byte (addr v : Z) : M unit :=
  fun w => (tt, with_byte_mem w (upd (byte_mem w) addr v), [EvStoreByte addr v]).

(** Two states that cannot be told apart: same context, globals and
    collector state, and memories equal cell by cell. *)
Definition same_state (w1 w2 : world GCState) : Prop :=
  acontext w1 = acontext w2 /\
  g_lowest_address w1 = g_lowest_address w2 /\
  g_highest_address w1 = g_highest_address w2 /\
  g_ephemeral_low w1 = g_ephemeral_low w2 /\
  g_ephemeral_high w1 = g_ephemeral_high w2 /\
  g_card_table w1 = g_card_table w2 /\
  (forall a, ref_mem w1 a = ref_mem w2 a) /\
  (forall a, byte_mem w1 a = byte_mem w2 a) /\
  gc_state w1 = gc_state w2.

End Monad.

Arguments M : clear implicits.

Notation "x <- c1 ;; c2" := (bind c1 (fun x => c2))
  (at level 100, c1 at next level, right associativity).

Notation "c1 ;;; c2" := (bind c1 (fun _ => c2))
  (at level 100, right associativity).

(** ** The sample *)

Section Sample.

Context {cfg : BuildConfig} {GCState : Type} {heap : GCHeap GCState}.

(** *** Machine words *)

Definition ptr_bits : Z := if WIN64 then 64 else 32.

Definition ptr_modulus : Z := 2 ^ ptr_bits.

(** [p + n] on a [BYTE *]: flat address arithmetic, wrapping around. *)
Definition ptr_add (p n : Z) : Z := (p + n) mod ptr_modulus.

(** A value that fits a machine word. *)
Definition in_range (x : Z) : Prop := 0 <= x < ptr_modulus.

(** [#define card_byte_shift]: 11 when [_WIN64] is defined, else 10. *)
Definition card_byte_shift : Z := if WIN64 then 11 else 10.

(** [#define card_byte(addr) (((size_t)(addr)) >> card_byte_shift)] *)
Definition card_byte (addr : Z) : Z := Z.shiftr addr card_byte_shift.

(** The card byte at index [i]: the cell [g_card_table + i]. *)
Definition card_at (w : world GCState) (i : Z) : Z :=
  byte_mem w (ptr_add (g_card_table w) i).

(** The address of the card byte of a field. *)
Definition card_address (w : world GCState) (dst : Z) : Z :=
  ptr_add (g_card_table w) (card_byte dst).

(** *** Collaborators *)

(** [GCHeap::GetGCHeap()->Alloc(acontext, size, flags)]; the event keeps
    the allocation context as the collector receives it. *)
Definition GCHeap_Alloc (size flags : Z) : M GCState Z :=
  fun w => let '(p, w') := Alloc w size flags in
           (p, w', [EvSlowAlloc (acontext w) size flags]).

(** Modelled from the spec: [Object::SetMethodTable] is declared outside
    the sample (gcenv.h); "first machine word is the descriptor
    reference", so it stores the descriptor's address in the cell at the
    object's own address. *)
Definition SetMethodTable (pObject : Z) (pMT : MethodTable) : M GCState unit :=
  store_ref pObject (mt_address pMT).

(** *** The sample's functions *)

(** [Object * AllocateObject(MethodTable * pMT)].  The early
    [return nullptr] of the slow branch is the [then] arm of the inner
    test; both ways out of the outer [if] continue with
    [SetMethodTable]. *)
Definition AllocateObject (pMT : MethodTable) : M GCState Z :=
  ctx <- read acontext ;;
  let size := GetBaseSize pMT in
  let result := alloc_ptr ctx in
  let advance := ptr_add result size in
  if advance <=? alloc_limit ctx then
    set_alloc_ptr advance ;;;
    let pObject := result in
    SetMethodTable pObject pMT ;;;
    ret pObject
  else
    pObject <- GCHeap_Alloc size 0 ;;
    if pObject =? nullptr then ret nullptr
    else
      SetMethodTable pObject pMT ;;;
      ret pObject.

(** [inline void ErectWriteBarrier(Object ** dst, Object * ref)] *)
Definition ErectWriteBarrier (dst ref : Z) : M GCState unit :=
  lowest <- read g_lowest_address ;;
  highest <- read g_highest_address ;;
  if (dst <? lowest) || (dst >=? highest) then ret tt
  else
    ephemeral_low <- read g_ephemeral_low ;;
    ephemeral_high <- read g_ephemeral_high ;;
    if (ref >=? ephemeral_low) && (ref <? ephemeral_high) then
      card_table <- read g_card_table ;;
      let pCardByte := ptr_add card_table (card_byte dst) in
      b <- load_byte pCardByte ;;
      if negb (b =? 255) then store_byte pCardByte 255 else ret tt
    else ret tt.

(** The four ways through [ErectWriteBarrier]. *)
Variant barrier_path (w : world GCState) (dst ref : Z) : Prop :=
| path_outside :
    dst < g_lowest_address w \/ g_highest_address w <= dst ->
    ErectWriteBarrier dst ref w = (tt, w, []) ->
    barrier_path w dst ref
| path_not_ephemeral :
    g_lowest_address w <= dst < g_highest_address w ->
    ref < g_ephemeral_low w \/ g_ephemeral_high w <= ref ->
    ErectWriteBarrier dst ref w = (tt, w, []) ->
    barrier_path w dst ref
| path_marked :
    g_lowest_address w <= dst < g_highest_address w ->
    g_ephemeral_low w <= ref < g_ephemeral_high w ->
    byte_mem w (card_address w dst) = 255 ->
    ErectWriteBarrier dst ref w = (tt, w, [EvLoadByte (card_address w dst)]) ->
    barrier_path w dst ref
| path_marks :
    g_lowest_address w <= dst < g_highest_address w ->
    g_ephemeral_low w <= ref < g_ephemeral_high w ->
    byte_mem w (card_address w dst) <> 255 ->
    ErectWriteBarrier dst ref w =
      (tt, with_byte_mem w (upd (byte_mem w) (card_address w dst) 255),
       [EvLoadByte (card_address w dst);
        EvStoreByte (card_address w dst) 255]) ->
    barrier_path w dst ref.

(** [void WriteBarrier(Object ** dst, Object * ref)] *)
Definition WriteBarrier (dst ref : Z) : M GCState unit :=
  store_ref dst ref ;;;
  ErectWriteBarrier dst ref.

(** A caller allocating one object per descriptor of a list, in order, as
    the loop of [main] does with a single descriptor. *)
Fixpoint AllocateObjects (pMTs : list MethodTable) : M GCState (list Z) :=
  match pMTs with
  | [] => ret []
  | pMT :: rest =>
      p <- AllocateObject pMT ;;
      ps <- AllocateObjects rest ;;
      ret (p :: ps)
  end.

(** The addresses a bump allocator hands out from [p] for a list of
    sizes: each one is the previous plus the previous size. *)
Fixpoint bump_addresses (p : Z) (sizes : list Z) : list Z :=
  match sizes with
  | [] => []
  | s :: rest => p :: bump_addresses (p + s) rest
  end.

(** Total size of a list of requests. *)
Definition total_size (sizes : list Z) : Z := fold_right Z.add 0 sizes.

End Sample.

(** ** The barrier's decision and the loop of [main] *)

(** The handle table as far as [main] uses it inside its loop:
    [ObjectFromHandle(oh)] reads the object a handle refers to at the
    moment of the call.  The table belongs to the collector
    (objecthandle.h); it is a parameter here. *)
Class HandleTable (GCState : Type) : Type := {
  ObjectFromHandle : world GCState -> Z -> Z
}.

Section Caller.

Context {cfg : BuildConfig} {GCState : Type} {heap : GCHeap GCState}
        {handles : HandleTable GCState}.

(** The size of a pointer in bytes: the room a header or a reference
    field takes. *)
Definition ptr_bytes : Z := ptr_bits / 8.

(** Modelled from the spec: the sample rounds no size; the spec speaks of
    sizes "rounded to the platform's natural alignment", that is up to the
    next multiple of the pointer size. *)
Definition align_up (size : Z) : Z :=
  (size + (ptr_bytes - 1)) / ptr_bytes * ptr_bytes.

(** The two tests of [ErectWriteBarrier] taken together: the field lies
    in the heap and the reference is ephemeral. *)
Definition needs_card (w : world GCState) (dst ref : Z) : bool :=
  negb ((dst <? g_lowest_address w) || (dst >=? g_highest_address w))
  && ((ref >=? g_ephemeral_low w) && (ref <? g_ephemeral_high w)).

(** One turn of the [for] loop of [main]: allocate an instance, leave
    [main] with -1 when that fails, otherwise store the new object into
    the field [m_pOther] of the object the handle refers to, through the
    barrier.  [offset] is [offsetof(My, m_pOther)].  The handle is read
    after the allocation, as in the source; the reads into [pBefore] and
    [pAfter] have no effect and no use.  The value is [Some (-1)] when
    [main] returns, [None] when the loop goes on. *)
Definition main_loop_body (oh offset : Z) (pMT : MethodTable)
  : M GCState (option Z) :=
  p <- AllocateObject pMT ;;
  if p =? nullptr then ret (Some (-1))
  else
    holder <- read (fun w => ObjectFromHandle w oh) ;;
    WriteBarrier (ptr_add holder offset) p ;;;
    ret None.

(** [for (int i = 0; i < n; i++)] around [main_loop_body]. *)
Fixpoint main_loop (n : nat) (oh offset : Z) (pMT : MethodTable)
  : M GCState (option Z) :=
  match n with
  | O => ret None
  | S k =>
      r <- main_loop_body oh offset pMT ;;
      match r with
      | Some code => ret (Some code)
      | None => main_loop k oh offset pMT
      end
  end.

End Caller.

(** A handle table whose handles are the addresses of pointer-sized cells
    holding the object. *)
Definition cell_handles {GCState : Type} : HandleTable GCState :=
  {| ObjectFromHandle := fun w oh => ref_mem w oh |}.

(** ** Sample configurations and collectors *)

Definition win64_build : BuildConfig := {| WIN64 := true |}.

Definition x86_build : BuildConfig := {| WIN64 := false |}.

(** A collector that is out of memory: every request fails. *)
Definition exhausted_heap : GCHeap unit :=
  {| Alloc := fun w _ _ => (nullptr, w) |}.

(** A collector that answers every request with a fresh 8 KiB region taken
    from a reserve whose next free address is its private state; the new
    object sits at the start of the region. *)
Definition region_heap : GCHeap Z :=
  {| Alloc := fun w size _ =>
       let base := gc_state w in
       (base,
        mk_world (mk_alloc_context (base + size) (base + 8192))
                 (g_lowest_address w) (g_highest_address w)
                 (g_ephemeral_low w) (g_ephemeral_high w) (g_card_table w)
                 (ref_mem w) (byte_mem w) (base + 8192)) |}.

(** A state with an allocation context [cursor, limit), a heap spanning
    [0x10000, 0x100000) whose upper half is ephemeral, a card table at
    [0x200000], and memory holding [fill] in every byte cell. *)
Definition sample_world {GCState : Type} (cursor limit fill : Z) (g : GCState)
  : world GCState :=
  mk_world (mk_alloc_context cursor limit)
           65536 1048576 524288 1048576 2097152
           (fun _ => 0) (fun _ => fill) g.

(** A state for the loop of [main]: the handle is the cell at [0x100]
    and refers to an old object at [0x10000]; the allocation context is
    the ephemeral region [[0x80000, 0x82000)]. *)
Definition linked_world {GCState : Type} (g : GCState) : world GCState :=
  mk_world (mk_alloc_context 524288 532480)
           65536 1048576 524288 1048576 2097152
           (upd (fun _ => 0) 256 65536) (fun _ => 0) g.

(** The descriptor of [main]: three pointers of base size, at some
    address. *)
Definition My_MethodTable (pointer_size : Z) : MethodTable :=
  mk_MethodTable 12288 (3 * pointer_size) 0 0.

(** A descriptor with a given base size. *)
Definition sized_MethodTable (size : Z) : MethodTable :=
  mk_MethodTable 12288 size 0 0.

(** Closes side conditions on concrete machine words. *)
Ltac word_facts :=
  unfold in_range, ptr_modulus, ptr_bits; cbn; repeat split; lia.

(** * Properties *)

(** ** Memory and traces *)

Lemma upd_same (m : Z -> Z) (a v : Z) : upd m a v a = v.
Proof. unfold upd. now rewrite Z.eqb_refl. Qed.

Lemma upd_other (m : Z -> Z) (a v x : Z) : x <> a -> upd m a v x = m x.
Proof. intros Hne. unfold upd. now apply Z.eqb_neq in Hne as ->. Qed.

Lemma upd_twice (m : Z -> Z) (a v x : Z) :
  upd (upd m a v) a v x = upd m a v x.
Proof. unfold upd. now destruct (x =? a). Qed.

(** ** The functions at work *)

Example card_byte_win64 : @card_byte win64_build 65544 = 32.
Proof. reflexivity. Qed.

Example card_byte_x86 : @card_byte x86_build 65544 = 64.
Proof. reflexivity. Qed.

Example ptr_add_wraps : @ptr_add x86_build 4294963200 8192 = 4096.
Proof. reflexivity. Qed.

(** The first allocation of [main]: the fresh context is empty, the
    collector supplies a region, the header is written. *)
Example AllocateObject_first_of_main :
  let r := @AllocateObject win64_build Z region_heap (My_MethodTable 8)
             (sample_world 0 0 0 65536) in
  value_of r = 65536 /\
  acontext (world_of r) = mk_alloc_context 65560 73728 /\
  trace_of r = [EvSlowAlloc (mk_alloc_context 0 0) 24 0; EvStoreRef 65536 12288].
Proof. repeat split. Qed.

(** The collector is out of memory: [AllocateObject] returns [nullptr]
    and writes no header. *)
Example AllocateObject_out_of_memory :
  let r := @AllocateObject win64_build unit exhausted_heap (My_MethodTable 8)
             (sample_world 0 0 0 tt) in
  value_of r = nullptr /\
  trace_of r = [EvSlowAlloc (mk_alloc_context 0 0) 24 0].
Proof. repeat split. Qed.

(** An old-to-young store on a clean card table: store, test, mark. *)
Example WriteBarrier_old_to_young :
  trace_of (@WriteBarrier win64_build unit 65544 524352
              (sample_world 4096 8192 0 tt))
  = [EvStoreRef 65544 524352; EvLoadByte 2097184; EvStoreByte 2097184 255].
Proof. reflexivity. Qed.

(** A store of a reference to an old object leaves the cards alone. *)
Example WriteBarrier_old_to_old :
  trace_of (@WriteBarrier win64_build unit 65544 65600
              (sample_world 4096 8192 0 tt))
  = [EvStoreRef 65544 65600].
Proof. reflexivity. Qed.

Section Properties.

Context {cfg : BuildConfig} {GCState : Type} {heap : GCHeap GCState}.

Implicit Types (w : world GCState) (pMT : MethodTable).

(** ** Machine words *)

Lemma ptr_modulus_pos : 0 < ptr_modulus.
Proof. unfold ptr_modulus, ptr_bits. destruct WIN64; reflexivity. Qed.

(** Pointer addition is exact as long as the sum fits a machine word. *)
Lemma ptr_add_exact (p n : Z) :
  0 <= p + n < ptr_modulus -> ptr_add p n = p + n.
Proof. intros Hfit. unfold ptr_add. now apply Z.mod_small. Qed.

Lemma ptr_add_in_range (p n : Z) : in_range (ptr_add p n).
Proof. unfold in_range, ptr_add. apply Z.mod_pos_bound, ptr_modulus_pos. Qed.

Lemma ptr_add_zero (p : Z) : in_range p -> ptr_add p 0 = p.
Proof.
  intros Hp. unfold in_range in Hp.
  rewrite ptr_add_exact; lia.
Qed.

(** ** Run equations of [AllocateObject] *)

(** The state the fast path leaves behind. *)
Lemma AllocateObject_fast w pMT :
  ptr_add (alloc_ptr (acontext w)) (GetBaseSize pMT) <= alloc_limit (acontext w) ->
  AllocateObject pMT w =
    (alloc_ptr (acontext w),
     with_ref_mem
       (with_acontext w
          (mk_alloc_context (ptr_add (alloc_ptr (acontext w)) (GetBaseSize pMT))
                            (alloc_limit (acontext w))))
       (upd (ref_mem w) (alloc_ptr (acontext w)) (mt_address pMT)),
     [EvStoreRef (alloc_ptr (acontext w)) (mt_address pMT)]).
Proof.
  intros Hfit. apply Z.leb_le in Hfit.
  unfold AllocateObject, bind, read. cbn beta iota zeta.
  rewrite Hfit. reflexivity.
Qed.

(** The state the slow path leaves behind: whatever the collector
    answered, with the header written when the answer is an object. *)
Lemma AllocateObject_slow w pMT :
  alloc_limit (acontext w) < ptr_add (alloc_ptr (acontext w)) (GetBaseSize pMT) ->
  AllocateObject pMT w =
    let p := fst (Alloc w (GetBaseSize pMT) 0) in
    let w' := snd (Alloc w (GetBaseSize pMT) 0) in
    if p =? nullptr then
      (nullptr, w', [EvSlowAlloc (acontext w) (GetBaseSize pMT) 0])
    else
      (p, with_ref_mem w' (upd (ref_mem w') p (mt_address pMT)),
       [EvSlowAlloc (acontext w) (GetBaseSize pMT) 0;
        EvStoreRef p (mt_address pMT)]).
Proof.
  intros Hover. apply Z.leb_gt in Hover.
  unfold AllocateObject, bind, read, GCHeap_Alloc. cbn beta iota zeta.
  rewrite Hover.
  destruct (Alloc w (GetBaseSize pMT) 0) as [p w'] eqn:Hcall. cbn [fst snd].
  destruct (p =? nullptr); reflexivity.
Qed.

(** ** Bump addresses *)

Lemma Forall_prefix {A : Type} (P : A -> Prop) (k : nat) (l : list A) :
  Forall P l -> Forall P (firstn k l).
Proof.
  intros Hall. revert k.
  induction Hall as [|x l Hx _ IH]; intros [|k]; cbn; constructor; auto.
Qed.

Lemma total_size_nonneg (sizes : list Z) :
  Forall (fun s => 0 <= s) sizes -> 0 <= total_size sizes.
Proof.
  induction 1 as [|s rest Hs _ IH]; cbn [total_size fold_right]; [lia|].
  fold (total_size rest). lia.
Qed.

Lemma total_size_firstn (k : nat) (sizes : list Z) :
  Forall (fun s => 0 <= s) sizes ->
  0 <= total_size (firstn k sizes) <= total_size sizes.
Proof.
  intros Hall. revert k.
  induction Hall as [|s rest Hs Hrest IH]; intros [|k]; cbn; try lia.
  - fold (total_size rest). pose proof (total_size_nonneg rest Hrest). lia.
  - fold (total_size rest) (total_size (firstn k rest)). specialize (IH k). lia.
Qed.

Lemma bump_addresses_lower (sizes : list Z) : forall p,
  Forall (fun s => 0 <= s) sizes ->
  Forall (fun a => p <= a) (bump_addresses p sizes).
Proof.
  induction sizes as [|s rest IH]; intros p Hall; cbn [bump_addresses].
  - constructor.
  - inversion Hall as [|? ? Hs Hrest]; subst.
    constructor; [lia|].
    eapply Forall_impl; [|apply (IH (p + s) Hrest)].
    cbn. intros a Ha. lia.
Qed.

Lemma bump_addresses_sorted (sizes : list Z) : forall p,
  Forall (fun s => 0 < s) sizes ->
  StronglySorted Z.lt (bump_addresses p sizes).
Proof.
  induction sizes as [|s rest IH]; intros p Hall; cbn [bump_addresses].
  - constructor.
  - inversion Hall as [|? ? Hs Hrest]; subst.
    constructor; [now apply IH|].
    eapply Forall_impl; [|apply (bump_addresses_lower rest (p + s))].
    + cbn. intros a Ha. lia.
    + eapply Forall_impl; [|exact Hrest]. cbn. intros a Ha. lia.
Qed.

Lemma bump_addresses_step (sizes : list Z) : forall p i a b s,
  nth_error (bump_addresses p sizes) i = Some a ->
  nth_error (bump_addresses p sizes) (S i) = Some b ->
  nth_error sizes i = Some s ->
  b = a + s.
Proof.
  induction sizes as [|s0 rest IH]; intros p i a b s Ha Hb Hs.
  - destruct i; discriminate.
  - destruct i as [|i].
    + cbn in Ha, Hs. injection Ha as <-. injection Hs as <-.
      destruct rest as [|s1 rest]; cbn in Hb; [discriminate|].
      now injection Hb as <-.
    + cbn [bump_addresses nth_error] in Ha, Hb, Hs.
      exact (IH (p + s0) i a b s Ha Hb Hs).
Qed.

(** ** Sequences of allocations that fit the region *)

(** As long as the requests fit, every call takes the fast path: the
    addresses are the bump addresses, the cursor ends after the last
    object, the limit stays, and the collector is never called. *)
Lemma AllocateObjects_fit (pMTs : list MethodTable) : forall w,
  in_range (alloc_ptr (acontext w)) ->
  in_range (alloc_limit (acontext w)) ->
  Forall (fun s => 0 <= s) (map GetBaseSize pMTs) ->
  alloc_ptr (acontext w) + total_size (map GetBaseSize pMTs)
    <= alloc_limit (acontext w) ->
  value_of (AllocateObjects pMTs w)
    = bump_addresses (alloc_ptr (acontext w)) (map GetBaseSize pMTs) /\
  acontext (world_of (AllocateObjects pMTs w))
    = mk_alloc_context
        (alloc_ptr (acontext w) + total_size (map GetBaseSize pMTs))
        (alloc_limit (acontext w)) /\
  slow_calls (trace_of (AllocateObjects pMTs w)) = [].
Proof.
  induction pMTs as [|pMT rest IH]; intros w Hptr Hlim Hall Hfit.
  - cbn. repeat split. rewrite Z.add_0_r. now destruct (acontext w).
  - cbn [map] in Hall, Hfit. inversion Hall as [|? ? Hs Hrest]; subst.
    cbn [total_size fold_right] in Hfit.
    fold (total_size (map GetBaseSize rest)) in Hfit.
    pose proof (total_size_nonneg _ Hrest) as Htot.
    unfold in_range in Hptr, Hlim.
    assert (Hexact : ptr_add (alloc_ptr (acontext w)) (GetBaseSize pMT)
                     = alloc_ptr (acontext w) + GetBaseSize pMT)
      by (apply ptr_add_exact; lia).
    cbn [AllocateObjects]. unfold bind, ret.
    rewrite AllocateObject_fast by lia. rewrite Hexact.
    set (w1 := with_ref_mem _ _).
    specialize (IH w1).
    cbn [w1 with_ref_mem with_acontext acontext alloc_ptr alloc_limit] in IH.
    destruct IH as (Hval & Hctx & Hcalls); unfold in_range; try lia; try assumption.
    destruct (AllocateObjects rest w1) as [[ps w2] t2].
    cbn [value_of world_of trace_of fst snd] in *.
    repeat split.
    + cbn [map bump_addresses]. now rewrite Hval.
    + rewrite Hctx. cbn [map total_size fold_right]. f_equal.
      fold (total_size (map GetBaseSize rest)). lia.
    + cbn. rewrite app_nil_r. exact Hcalls.
Qed.

(** ** Run equations of the write barrier *)

Lemma ErectWriteBarrier_outside w dst ref :
  dst < g_lowest_address w \/ g_highest_address w <= dst ->
  ErectWriteBarrier dst ref w = (tt, w, []).
Proof.
  intros Hout. unfold ErectWriteBarrier, bind, read. cbn beta iota zeta.
  replace ((dst <? g_lowest_address w) || (dst >=? g_highest_address w))
    with true; [reflexivity|].
  symmetry. apply orb_true_iff.
  destruct Hout as [Hlow|Hhigh]; [left; now apply Z.ltb_lt|right].
  rewrite Z.geb_leb. now apply Z.leb_le.
Qed.

Lemma heap_test_inside w dst :
  g_lowest_address w <= dst < g_highest_address w ->
  (dst <? g_lowest_address w) || (dst >=? g_highest_address w) = false.
Proof.
  intros [Hlow Hhigh]. apply orb_false_iff. split.
  - now apply Z.ltb_ge.
  - rewrite Z.geb_leb. now apply Z.leb_gt.
Qed.

Lemma ephemeral_test_inside w ref :
  g_ephemeral_low w <= ref < g_ephemeral_high w ->
  (ref >=? g_ephemeral_low w) && (ref <? g_ephemeral_high w) = true.
Proof.
  intros [Hlow Hhigh]. apply andb_true_iff. split.
  - rewrite Z.geb_leb. now apply Z.leb_le.
  - now apply Z.ltb_lt.
Qed.

Lemma ErectWriteBarrier_not_ephemeral w dst ref :
  g_lowest_address w <= dst < g_highest_address w ->
  ref < g_ephemeral_low w \/ g_ephemeral_high w <= ref ->
  ErectWriteBarrier dst ref w = (tt, w, []).
Proof.
  intros Hin Hold. unfold ErectWriteBarrier, bind, read. cbn beta iota zeta.
  rewrite (heap_test_inside w dst Hin). cbn beta iota zeta.
  replace ((ref >=? g_ephemeral_low w) && (ref <? g_ephemeral_high w))
    with false; [reflexivity|].
  symmetry. apply andb_false_iff.
  destruct Hold as [Hlow|Hhigh]; [left|right; now apply Z.ltb_ge].
  rewrite Z.geb_leb. now apply Z.leb_gt.
Qed.

(** The card is already marked: the barrier reads it and stores nothing. *)
Lemma ErectWriteBarrier_marked w dst ref :
  g_lowest_address w <= dst < g_highest_address w ->
  g_ephemeral_low w <= ref < g_ephemeral_high w ->
  byte_mem w (card_address w dst) = 255 ->
  ErectWriteBarrier dst ref w = (tt, w, [EvLoadByte (card_address w dst)]).
Proof.
  intros Hin Hyoung Hcard. unfold card_address in *.
  unfold ErectWriteBarrier, bind, read, load_byte. cbn beta iota zeta.
  rewrite (heap_test_inside w dst Hin). cbn beta iota zeta.
  rewrite (ephemeral_test_inside w ref Hyoung). cbn beta iota zeta.
  rewrite Hcard. reflexivity.
Qed.

(** The card is not marked yet: the barrier reads it, then stores 0xFF. *)
Lemma ErectWriteBarrier_marks w dst ref :
  g_lowest_address w <= dst < g_highest_address w ->
  g_ephemeral_low w <= ref < g_ephemeral_high w ->
  byte_mem w (card_address w dst) <> 255 ->
  ErectWriteBarrier dst ref w =
    (tt, with_byte_mem w (upd (byte_mem w) (card_address w dst) 255),
     [EvLoadByte (card_address w dst); EvStoreByte (card_address w dst) 255]).
Proof.
  intros Hin Hyoung Hcard. unfold card_address in *.
  unfold ErectWriteBarrier, bind, read, load_byte, store_byte.
  cbn beta iota zeta.
  rewrite (heap_test_inside w dst Hin). cbn beta iota zeta.
  rewrite (ephemeral_test_inside w ref Hyoung). cbn beta iota zeta.
  apply Z.eqb_neq in Hcard. rewrite Hcard. reflexivity.
Qed.

Lemma ErectWriteBarrier_paths w dst ref : barrier_path w dst ref.
Proof.
  destruct (Z_lt_le_dec dst (g_lowest_address w)) as [Hlow|Hlow].
  { apply path_outside; [now left|]. apply ErectWriteBarrier_outside. now left. }
  destruct (Z_lt_le_dec dst (g_highest_address w)) as [Hhigh|Hhigh]; cycle 1.
  { apply path_outside; [now right|]. apply ErectWriteBarrier_outside. now right. }
  destruct (Z_lt_le_dec ref (g_ephemeral_low w)) as [Hel|Hel].
  { apply path_not_ephemeral; [lia|now left|].
    apply ErectWriteBarrier_not_ephemeral; [lia|now left]. }
  destruct (Z_lt_le_dec ref (g_ephemeral_high w)) as [Heh|Heh]; cycle 1.
  { apply path_not_ephemeral; [lia|now right|].
    apply ErectWriteBarrier_not_ephemeral; [lia|now right]. }
  destruct (Z.eq_dec (byte_mem w (card_address w dst)) 255) as [Hcard|Hcard].
  - apply path_marked; try lia. apply ErectWriteBarrier_marked; lia.
  - apply path_marks; try lia. apply ErectWriteBarrier_marks; lia.
Qed.

(** [WriteBarrier] is the raw store followed by [ErectWriteBarrier]. *)
Lemma WriteBarrier_run w dst ref :
  WriteBarrier dst ref w =
    let w0 := with_ref_mem w (upd (ref_mem w) dst ref) in
    (tt, world_of (ErectWriteBarrier dst ref w0),
     EvStoreRef dst ref :: trace_of (ErectWriteBarrier dst ref w0)).
Proof.
  unfold WriteBarrier, bind, store_ref. cbn beta iota zeta.
  destruct (ErectWriteBarrier dst ref _) as [[[] w1] t1]. reflexivity.
Qed.

(** [ErectWriteBarrier] leaves everything but the byte cells alone. *)
Lemma ErectWriteBarrier_frame w dst ref :
  let r := ErectWriteBarrier dst ref w in
  ref_mem (world_of r) = ref_mem w /\
  ref_stores (trace_of r) = [] /\
  slow_calls (trace_of r) = [] /\
  world_of r = with_byte_mem w (byte_mem (world_of r)).
Proof.
  destruct (ErectWriteBarrier_paths w dst ref) as [? E|? ? E|? ? ? E|? ? ? E];
    rewrite E; cbn; repeat split; now destruct w.
Qed.

(** ** The bump allocator *)

(** C1.  On a context with [cursor + size <= limit], [AllocateObject]
    returns the original cursor as the address of the new object, advances
    the cursor to [cursor + size], keeps the limit, and does not call the
    slow allocation path of the external heap. *)
Theorem AllocateObject_fast_path w pMT :
  in_range (alloc_ptr (acontext w)) ->
  in_range (alloc_limit (acontext w)) ->
  in_range (GetBaseSize pMT) ->
  alloc_ptr (acontext w) + GetBaseSize pMT <= alloc_limit (acontext w) ->
  let r := AllocateObject pMT w in
  value_of r = alloc_ptr (acontext w) /\
  alloc_ptr (acontext (world_of r)) = alloc_ptr (acontext w) + GetBaseSize pMT /\
  alloc_limit (acontext (world_of r)) = alloc_limit (acontext w) /\
  slow_calls (trace_of r) = [].
Proof.
  intros Hptr Hlim Hsize Hfit r. subst r.
  unfold in_range in Hptr, Hlim, Hsize.
  assert (Hexact : ptr_add (alloc_ptr (acontext w)) (GetBaseSize pMT)
                   = alloc_ptr (acontext w) + GetBaseSize pMT)
    by (apply ptr_add_exact; lia).
  rewrite AllocateObject_fast by lia.
  rewrite Hexact. cbn. repeat split.
Qed.

(** C4, amended.  For every sequence of allocations with non-zero sizes
    whose requests all fit within one bump region, the returned addresses
    start at the cursor and are strictly increasing, each successive
    address exceeds the previous one by exactly the requested size (the
    descriptor's base size as it is: no rounding is applied), and after
    every call of the sequence the cursor does not exceed the limit. *)
Theorem AllocateObjects_bump w (pMTs : list MethodTable) :
  in_range (alloc_ptr (acontext w)) ->
  in_range (alloc_limit (acontext w)) ->
  Forall (fun pMT => 0 < GetBaseSize pMT) pMTs ->
  alloc_ptr (acontext w) + total_size (map GetBaseSize pMTs)
    <= alloc_limit (acontext w) ->
  let addresses := value_of (AllocateObjects pMTs w) in
  addresses = bump_addresses (alloc_ptr (acontext w)) (map GetBaseSize pMTs) /\
  StronglySorted Z.lt addresses /\
  (forall i a b s,
      nth_error addresses i = Some a ->
      nth_error addresses (S i) = Some b ->
      nth_error (map GetBaseSize pMTs) i = Some s ->
      b = a + s) /\
  (forall k,
      alloc_ptr (acontext (world_of (AllocateObjects (firstn k pMTs) w)))
      <= alloc_limit (acontext (world_of (AllocateObjects (firstn k pMTs) w)))).
Proof.
  intros Hptr Hlim Hpos Hfit addresses.
  assert (Hsizes : Forall (fun s => 0 < s) (map GetBaseSize pMTs)).
  { apply Forall_map. exact Hpos. }
  assert (Hnonneg : Forall (fun s => 0 <= s) (map GetBaseSize pMTs)).
  { eapply Forall_impl; [|exact Hsizes]. cbn. intros s Hs. lia. }
  destruct (AllocateObjects_fit pMTs w Hptr Hlim Hnonneg Hfit) as (Hval & _ & _).
  fold addresses in Hval.
  split; [exact Hval|]. rewrite Hval. split; [|split].
  - now apply bump_addresses_sorted.
  - intros i a b s. apply bump_addresses_step.
  - intros k.
    assert (Hprefix : Forall (fun s => 0 <= s) (map GetBaseSize (firstn k pMTs))).
    { rewrite <- firstn_map. now apply Forall_prefix. }
    pose proof (total_size_firstn k _ Hnonneg) as Hbound.
    rewrite firstn_map in Hbound.
    destruct (AllocateObjects_fit (firstn k pMTs) w Hptr Hlim Hprefix)
      as (_ & Hctx & _); [lia|].
    rewrite Hctx. cbn. lia.
Qed.

(** C5, amended.  When [cursor + size > limit] and the sum does not wrap
    around the pointer width, [AllocateObject] calls the slow allocation
    path of the external heap exactly once, handing it the allocation
    context as it found it; the result and the context after the call are
    the collector's: the sample itself changes neither cursor nor limit. *)
Theorem AllocateObject_exhausted w pMT :
  in_range (alloc_ptr (acontext w)) ->
  in_range (GetBaseSize pMT) ->
  alloc_limit (acontext w) < alloc_ptr (acontext w) + GetBaseSize pMT ->
  alloc_ptr (acontext w) + GetBaseSize pMT < ptr_modulus ->
  let r := AllocateObject pMT w in
  let answer := Alloc w (GetBaseSize pMT) 0 in
  slow_calls (trace_of r) = [(acontext w, GetBaseSize pMT, 0)] /\
  value_of r = fst answer /\
  acontext (world_of r) = acontext (snd answer).
Proof.
  intros Hptr Hsize Hover Hnowrap r answer. subst r answer.
  unfold in_range in Hptr, Hsize.
  assert (Hexact : ptr_add (alloc_ptr (acontext w)) (GetBaseSize pMT)
                   = alloc_ptr (acontext w) + GetBaseSize pMT)
    by (apply ptr_add_exact; lia).
  rewrite AllocateObject_slow by lia.
  destruct (Alloc w (GetBaseSize pMT) 0) as [p w'] eqn:Hcall. cbn [fst snd].
  destruct (Z.eqb_spec p nullptr) as [->|Hnonnull]; cbn; repeat split.
Qed.

(** C8, amended.  A request of size 0 is not rejected: the code checks no
    size and has no error for it.  On a context with a non-null cursor and
    [cursor <= limit] the fast path serves it: it returns the cursor, a
    non-null pointer, as the object's address, writes the descriptor
    there, leaves the context as it was and does not call the slow
    path. *)
Theorem AllocateObject_zero_size w pMT :
  GetBaseSize pMT = 0 ->
  in_range (alloc_ptr (acontext w)) ->
  alloc_ptr (acontext w) <> nullptr ->
  alloc_ptr (acontext w) <= alloc_limit (acontext w) ->
  let r := AllocateObject pMT w in
  value_of r = alloc_ptr (acontext w) /\
  value_of r <> nullptr /\
  acontext (world_of r) = acontext w /\
  trace_of r = [EvStoreRef (alloc_ptr (acontext w)) (mt_address pMT)].
Proof.
  intros Hzero Hptr Hnonnull Hle r. subst r.
  pose proof (ptr_add_zero _ Hptr) as Hexact.
  rewrite AllocateObject_fast by (rewrite Hzero, Hexact; exact Hle).
  rewrite Hzero, Hexact. cbn. repeat split.
  - exact Hnonnull.
  - now destruct (acontext w).
Qed.

(** C9.  Whenever [AllocateObject] returns an object (a non-null pointer),
    whether from the fast path or from the slow path, the first machine
    word of that object holds the address of the descriptor passed in, and
    writing it is the last thing the call does. *)
Theorem AllocateObject_writes_header w pMT :
  let r := AllocateObject pMT w in
  value_of r <> nullptr ->
  ref_mem (world_of r) (value_of r) = mt_address pMT /\
  exists t, trace_of r = t ++ [EvStoreRef (value_of r) (mt_address pMT)].
Proof.
  intros r. subst r.
  destruct (Z_le_gt_dec (ptr_add (alloc_ptr (acontext w)) (GetBaseSize pMT))
                        (alloc_limit (acontext w))) as [Hfit|Hover].
  - rewrite AllocateObject_fast by exact Hfit. cbn. intros _. split.
    + apply upd_same.
    + now exists [].
  - rewrite AllocateObject_slow by lia.
    destruct (Alloc w (GetBaseSize pMT) 0) as [p w'] eqn:Hcall. cbn [fst snd].
    destruct (Z.eqb_spec p nullptr) as [->|Hnonnull]; cbn.
    + intros Habsurd. now contradiction Habsurd.
    + intros _. split.
      * apply upd_same.
      * now exists [EvSlowAlloc (acontext w) (GetBaseSize pMT) 0].
Qed.

(** ** The write barrier *)

(** C2.  When [dst] lies in [[g_lowest_address, g_highest_address)] and
    [ref] lies in [[g_ephemeral_low, g_ephemeral_high)], after
    [WriteBarrier] the card byte at index [dst >> card_byte_shift] (shift
    11 when [_WIN64] is defined, 10 otherwise) holds 0xFF. *)
Theorem WriteBarrier_marks_card w dst ref :
  g_lowest_address w <= dst < g_highest_address w ->
  g_ephemeral_low w <= ref < g_ephemeral_high w ->
  let r := WriteBarrier dst ref w in
  card_at (world_of r) (Z.shiftr dst (if WIN64 then 11 else 10)) = 255.
Proof.
  intros Hin Hyoung r. subst r.
  change (Z.shiftr dst (if WIN64 then 11 else 10)) with (card_byte dst).
  rewrite WriteBarrier_run. cbn zeta.
  set (w0 := with_ref_mem w (upd (ref_mem w) dst ref)).
  destruct (ErectWriteBarrier_paths w0 dst ref)
    as [Hout E|_ Hold E|_ _ Hcard E|_ _ Hcard E];
    cbn [w0 with_ref_mem g_lowest_address g_highest_address
         g_ephemeral_low g_ephemeral_high] in *; try lia;
    rewrite E; cbn [world_of fst snd].
  - exact Hcard.
  - unfold card_at, card_address. cbn. apply upd_same.
Qed.

(** C3.  [WriteBarrier] performs the raw store [*dst = ref] first and
    unconditionally, whatever the arguments: the store opens the trace of
    the call, no later step writes a pointer-sized cell, and after the
    call the cell at [dst] holds [ref]. *)
Theorem WriteBarrier_stores_first w dst ref :
  let r := WriteBarrier dst ref w in
  (exists t, trace_of r = EvStoreRef dst ref :: t /\ ref_stores t = []) /\
  ref_mem (world_of r) dst = ref.
Proof.
  intros r. subst r. rewrite WriteBarrier_run. cbn zeta.
  set (w0 := with_ref_mem w (upd (ref_mem w) dst ref)).
  destruct (ErectWriteBarrier_frame w0 dst ref) as (Hmem & Hstores & _).
  cbn [world_of trace_of fst snd] in *. split.
  - eexists. split; [reflexivity|exact Hstores].
  - rewrite Hmem. cbn. apply upd_same.
Qed.

(** C6.  When [dst] lies outside [[g_lowest_address, g_highest_address)],
    [WriteBarrier] changes no byte of the card table and does not even
    read one: the call completes normally and its whole effect is the raw
    store. *)
Theorem WriteBarrier_outside_heap w dst ref :
  dst < g_lowest_address w \/ g_highest_address w <= dst ->
  let r := WriteBarrier dst ref w in
  byte_mem (world_of r) = byte_mem w /\
  trace_of r = [EvStoreRef dst ref] /\
  world_of r = with_ref_mem w (upd (ref_mem w) dst ref).
Proof.
  intros Hout r. subst r. rewrite WriteBarrier_run. cbn zeta.
  rewrite ErectWriteBarrier_outside by exact Hout.
  cbn. repeat split.
Qed.

(** C7.  Calling [WriteBarrier] twice in succession with the same
    arguments leaves the state as one call does: the card table is the
    same, the stored field and every other cell hold the same values, and
    nothing else differs. *)
Theorem WriteBarrier_idempotent w dst ref :
  let once := world_of (WriteBarrier dst ref w) in
  let twice := world_of (WriteBarrier dst ref once) in
  byte_mem twice = byte_mem once /\ same_state twice once.
Proof.
  intros once twice. subst twice once.
  rewrite (WriteBarrier_run w). cbn zeta. cbn [world_of fst snd].
  set (w0 := with_ref_mem w (upd (ref_mem w) dst ref)).
  assert (Hsecond : forall w1,
             ref_mem w1 = upd (ref_mem w) dst ref ->
             (g_lowest_address w1 <= dst < g_highest_address w1 ->
              g_ephemeral_low w1 <= ref < g_ephemeral_high w1 ->
              byte_mem w1 (card_address w1 dst) = 255) ->
             byte_mem (world_of (WriteBarrier dst ref w1)) = byte_mem w1 /\
             same_state (world_of (WriteBarrier dst ref w1)) w1).
  { intros w1 Hmem Hmarked. rewrite WriteBarrier_run. cbn zeta.
    cbn [world_of fst snd].
    set (w2 := with_ref_mem w1 (upd (ref_mem w1) dst ref)).
    assert (Hsame : same_state w2 w1).
    { unfold same_state. cbn. repeat split. intros a.
      rewrite Hmem. apply upd_twice. }
    destruct (ErectWriteBarrier_paths w2 dst ref)
      as [_ E|_ _ E|_ _ _ E|Hin Hyoung Hcard E]; rewrite E;
      cbn [world_of fst snd]; try (split; [reflexivity|exact Hsame]).
    exfalso. apply Hcard. apply Hmarked; assumption. }
  destruct (ErectWriteBarrier_paths w0 dst ref)
    as [Hout E|Hin Hold E|_ _ Hcard E|_ _ _ E]; rewrite E;
    cbn [world_of fst snd]; apply Hsecond; try reflexivity;
    cbn [w0 with_ref_mem with_byte_mem g_lowest_address g_highest_address
         g_ephemeral_low g_ephemeral_high byte_mem] in *;
    intros Hin' Hyoung'.
  - lia.
  - lia.
  - exact Hcard.
  - apply upd_same.
Qed.

(** C10.  If the card byte at index [dst >> card_byte_shift] already holds
    0xFF, [WriteBarrier] stores nothing to the card table and leaves it
    untouched; on the path that reaches the card, all it does after the
    raw store is read the byte. *)
Theorem WriteBarrier_marked_card_untouched w dst ref :
  card_at w (card_byte dst) = 255 ->
  let r := WriteBarrier dst ref w in
  byte_stores (trace_of r) = [] /\
  byte_mem (world_of r) = byte_mem w /\
  (g_lowest_address w <= dst < g_highest_address w ->
   g_ephemeral_low w <= ref < g_ephemeral_high w ->
   trace_of r = [EvStoreRef dst ref; EvLoadByte (card_address w dst)]).
Proof.
  intros Hmarked r. subst r. rewrite WriteBarrier_run. cbn zeta.
  set (w0 := with_ref_mem w (upd (ref_mem w) dst ref)).
  destruct (ErectWriteBarrier_paths w0 dst ref)
    as [Hout E|Hin Hold E|_ _ _ E|_ _ Hcard E]; rewrite E;
    cbn [world_of trace_of fst snd];
    cbn [w0 with_ref_mem g_lowest_address g_highest_address
         g_ephemeral_low g_ephemeral_high] in *.
  - repeat split. lia.
  - repeat split. lia.
  - repeat split.
  - exfalso. apply Hcard. exact Hmarked.
Qed.

End Properties.

(** * Instances

    The properties above, applied to concrete states, and the concrete
    states on which the specification and the code part ways. *)

(** A 64-bit build, a region [[4096, 8192)], an object of three pointers:
    the fast path returns 4096 and moves the cursor to 4120. *)
Lemma AllocateObject_fast_path_witness :
  let w := sample_world 4096 8192 0 tt in
  let pMT := My_MethodTable 8 in
  let r := @AllocateObject win64_build unit exhausted_heap pMT w in
  (@in_range win64_build 4096 /\ @in_range win64_build 8192 /\
   @in_range win64_build 24 /\ 4096 + 24 <= 8192) /\
  value_of r = 4096 /\
  alloc_ptr (acontext (world_of r)) = 4120 /\
  alloc_limit (acontext (world_of r)) = 8192 /\
  slow_calls (trace_of r) = [].
Proof.
  intros w pMT r. split; [word_facts|].
  apply (@AllocateObject_fast_path win64_build unit exhausted_heap w pMT);
    word_facts.
Defined.

(** Requests of 5 and 8 bytes on a 64-bit build: both fit, even rounded up
    to 8 bytes each, but the second object starts at 4096 + 5, not at
    4096 + 8: the step is the size as given, not the aligned size. *)
Lemma unaligned_size_is_not_rounded :
  let w := sample_world 4096 8192 0 tt in
  let pMTs := [sized_MethodTable 5; sized_MethodTable 8] in
  let addresses :=
    value_of (@AllocateObjects win64_build unit exhausted_heap pMTs w) in
  Forall (fun pMT => 0 < GetBaseSize pMT) pMTs /\
  alloc_ptr (acontext w)
    + total_size (map (fun pMT => @align_up win64_build (GetBaseSize pMT)) pMTs)
    <= alloc_limit (acontext w) /\
  @align_up win64_build 5 = 8 /\
  addresses = [4096; 4101] /\
  nth 1 addresses 0 <> nth 0 addresses 0 + @align_up win64_build 5.
Proof.
  intros w pMTs addresses.
  assert (Hrun : addresses = [4096; 4101]) by (vm_compute; reflexivity).
  split; [repeat constructor|].
  split; [vm_compute; discriminate|].
  split; [reflexivity|].
  split; [exact Hrun|].
  rewrite Hrun. vm_compute. discriminate.
Qed.

(** Three objects of 24, 16 and 40 bytes from a region [[4096, 8192)]. *)
Lemma AllocateObjects_bump_witness :
  let w := sample_world 4096 8192 0 tt in
  let pMTs := [sized_MethodTable 24; sized_MethodTable 16; sized_MethodTable 40] in
  let addresses :=
    value_of (@AllocateObjects win64_build unit exhausted_heap pMTs w) in
  (@in_range win64_build 4096 /\ @in_range win64_build 8192 /\
   Forall (fun pMT => 0 < GetBaseSize pMT) pMTs /\
   4096 + total_size (map GetBaseSize pMTs) <= 8192) /\
  addresses = [4096; 4120; 4136] /\
  StronglySorted Z.lt addresses /\
  (forall i a b s,
      nth_error addresses i = Some a ->
      nth_error addresses (S i) = Some b ->
      nth_error (map GetBaseSize pMTs) i = Some s ->
      b = a + s) /\
  (forall k,
      alloc_ptr (acontext (world_of
        (@AllocateObjects win64_build unit exhausted_heap (firstn k pMTs) w)))
      <= alloc_limit (acontext (world_of
        (@AllocateObjects win64_build unit exhausted_heap (firstn k pMTs) w)))).
Proof.
  intros w pMTs addresses.
  assert (Hpos : Forall (fun pMT => 0 < GetBaseSize pMT) pMTs).
  { repeat constructor. }
  split; [split; [word_facts|split; [word_facts|split; [exact Hpos|cbn; lia]]]|].
  apply (@AllocateObjects_bump win64_build unit exhausted_heap w pMTs);
    [word_facts|word_facts|exact Hpos|cbn; lia].
Defined.

(** A 32-bit build, a region [[0xFFFFF000, 0xFFFFF800)] at the top of the
    address space, an object of 8 KiB: [cursor + size] exceeds the limit,
    yet the pointer sum wraps to 0x1000, the fast path is taken, the
    collector is not called and the cursor is overwritten. *)
Lemma wrapped_request_takes_fast_path :
  let w := sample_world 4294963200 4294965248 0 tt in
  let pMT := sized_MethodTable 8192 in
  let r := @AllocateObject x86_build unit exhausted_heap pMT w in
  (@in_range x86_build (alloc_ptr (acontext w)) /\
   @in_range x86_build (alloc_limit (acontext w)) /\
   @in_range x86_build (GetBaseSize pMT) /\
   alloc_limit (acontext w) < alloc_ptr (acontext w) + GetBaseSize pMT) /\
  slow_calls (trace_of r) = [] /\
  value_of r = 4294963200 /\
  acontext (world_of r) = mk_alloc_context 4096 4294965248 /\
  acontext (world_of r) <> acontext w.
Proof.
  intros w pMT r. split; [word_facts|].
  repeat split; try (vm_compute; reflexivity).
  vm_compute. discriminate.
Qed.

(** A 64-bit build, an exhausted region [[8192, 8192)], a collector that
    hands out a fresh region at 0x10000: one call to the slow path, with
    the context as it was. *)
Lemma AllocateObject_exhausted_witness :
  let w := sample_world 8192 8192 0 65536 in
  let pMT := My_MethodTable 8 in
  let r := @AllocateObject win64_build Z region_heap pMT w in
  (@in_range win64_build 8192 /\ @in_range win64_build 24 /\
   8192 < 8192 + 24 /\ 8192 + 24 < @ptr_modulus win64_build) /\
  slow_calls (trace_of r) = [(mk_alloc_context 8192 8192, 24, 0)] /\
  value_of r = 65536 /\
  acontext (world_of r) = mk_alloc_context 65560 73728.
Proof.
  intros w pMT r. split; [word_facts|].
  apply (@AllocateObject_exhausted win64_build Z region_heap w pMT);
    word_facts.
Defined.

(** A request of size 0 on a region [[4096, 8192)] is served: the call
    returns the object 4096, not a failure, and writes its header. *)
Lemma zero_size_is_allocated :
  let w := sample_world 4096 8192 0 tt in
  let pMT := sized_MethodTable 0 in
  let r := @AllocateObject win64_build unit exhausted_heap pMT w in
  GetBaseSize pMT = 0 /\
  value_of r = 4096 /\
  value_of r <> nullptr /\
  trace_of r = [EvStoreRef 4096 (mt_address pMT)] /\
  ref_mem (world_of r) 4096 = mt_address pMT.
Proof.
  intros w pMT r. repeat split; try (vm_compute; reflexivity).
  vm_compute. discriminate.
Qed.

Lemma AllocateObject_zero_size_witness :
  let w := sample_world 4096 8192 0 tt in
  let pMT := sized_MethodTable 0 in
  let r := @AllocateObject win64_build unit exhausted_heap pMT w in
  (GetBaseSize pMT = 0 /\ @in_range win64_build 4096 /\
   4096 <> nullptr /\ 4096 <= 8192) /\
  value_of r = 4096 /\
  value_of r <> nullptr /\
  acontext (world_of r) = acontext w /\
  trace_of r = [EvStoreRef 4096 (mt_address pMT)].
Proof.
  intros w pMT r.
  assert (Hnonnull : 4096 <> nullptr) by (unfold nullptr; lia).
  split; [split; [reflexivity|split; [word_facts|split; [exact Hnonnull|lia]]]|].
  apply (@AllocateObject_zero_size win64_build unit exhausted_heap w pMT);
    [reflexivity|word_facts|exact Hnonnull|cbn; lia].
Defined.

(** The slow path of [region_heap] returns the object 0x10000; its first
    word then holds the descriptor's address. *)
Lemma AllocateObject_writes_header_witness :
  let w := sample_world 8192 8192 0 65536 in
  let pMT := My_MethodTable 8 in
  let r := @AllocateObject win64_build Z region_heap pMT w in
  value_of r <> nullptr /\
  ref_mem (world_of r) (value_of r) = mt_address pMT /\
  exists t, trace_of r = t ++ [EvStoreRef (value_of r) (mt_address pMT)].
Proof.
  intros w pMT r.
  assert (Hobject : value_of r <> nullptr) by (vm_compute; discriminate).
  split; [exact Hobject|].
  exact (@AllocateObject_writes_header win64_build Z region_heap w pMT Hobject).
Defined.

(** A store of a young object (0x80040) into a field of an old one
    (0x10008) on a 64-bit build marks card 0x10008 >> 11 = 32. *)
Lemma WriteBarrier_marks_card_witness :
  let w := sample_world 4096 8192 0 tt in
  let r := @WriteBarrier win64_build unit 65544 524352 w in
  (g_lowest_address w <= 65544 < g_highest_address w /\
   g_ephemeral_low w <= 524352 < g_ephemeral_high w) /\
  @card_at win64_build unit (world_of r) 32 = 255.
Proof.
  intros w r. split; [cbn; lia|].
  apply (@WriteBarrier_marks_card win64_build unit w 65544 524352); cbn; lia.
Defined.

(** A store into a field at 0x1000, below the heap. *)
Lemma WriteBarrier_outside_heap_witness :
  let w := sample_world 4096 8192 0 tt in
  let r := @WriteBarrier win64_build unit 4096 524352 w in
  (4096 < g_lowest_address w \/ g_highest_address w <= 4096) /\
  byte_mem (world_of r) = byte_mem w /\
  trace_of r = [EvStoreRef 4096 524352] /\
  world_of r = with_ref_mem w (upd (ref_mem w) 4096 524352).
Proof.
  intros w r. split; [left; cbn; lia|].
  apply (@WriteBarrier_outside_heap win64_build unit w 4096 524352).
  left. cbn. lia.
Defined.

(** The same store as above into a card table whose bytes all hold 0xFF. *)
Lemma WriteBarrier_marked_card_untouched_witness :
  let w := sample_world 4096 8192 255 tt in
  let r := @WriteBarrier win64_build unit 65544 524352 w in
  @card_at win64_build unit w (@card_byte win64_build 65544) = 255 /\
  byte_stores (trace_of r) = [] /\
  byte_mem (world_of r) = byte_mem w /\
  (g_lowest_address w <= 65544 < g_highest_address w ->
   g_ephemeral_low w <= 524352 < g_ephemeral_high w ->
   trace_of r = [EvStoreRef 65544 524352;
                 EvLoadByte (@card_address win64_build unit w 65544)]).
Proof.
  intros w r. split; [reflexivity|].
  apply (@WriteBarrier_marked_card_untouched win64_build unit w 65544 524352).
  reflexivity.
Defined.

(** * Further properties of the sample *)

Section MoreProperties.

Context {cfg : BuildConfig} {GCState : Type} {heap : GCHeap GCState}
        {handles : HandleTable GCState}.

Implicit Types (w : world GCState) (pMT : MethodTable).

(** ** What one barrier does to the state *)

Lemma needs_card_true w dst ref :
  needs_card w dst ref = true <->
  (g_lowest_address w <= dst < g_highest_address w /\
   g_ephemeral_low w <= ref < g_ephemeral_high w).
Proof.
  unfold needs_card.
  rewrite andb_true_iff, negb_true_iff, orb_false_iff, andb_true_iff.
  rewrite !Z.geb_leb, Z.ltb_ge, Z.leb_gt, Z.leb_le, Z.ltb_lt. tauto.
Qed.

Lemma needs_card_false w dst ref :
  needs_card w dst ref = false <->
  ((dst < g_lowest_address w \/ g_highest_address w <= dst) \/
   (ref < g_ephemeral_low w \/ g_ephemeral_high w <= ref)).
Proof.
  destruct (needs_card w dst ref) eqn:Hneeds.
  - apply needs_card_true in Hneeds. split; [discriminate|lia].
  - split; [intros _|reflexivity].
    destruct (Z_lt_le_dec dst (g_lowest_address w)); [tauto|].
    destruct (Z_lt_le_dec dst (g_highest_address w)); [|tauto].
    destruct (Z_lt_le_dec ref (g_ephemeral_low w)); [tauto|].
    destruct (Z_lt_le_dec ref (g_ephemeral_high w)); [|tauto].
    assert (Habsurd : needs_card w dst ref = true)
      by (apply needs_card_true; lia).
    congruence.
Qed.

(** The whole effect of [WriteBarrier]: one pointer-sized cell is
    written, at most one byte cell becomes 0xFF, nothing else moves. *)
Lemma WriteBarrier_effect w dst ref :
  let r := WriteBarrier dst ref w in
  acontext (world_of r) = acontext w /\
  g_lowest_address (world_of r) = g_lowest_address w /\
  g_highest_address (world_of r) = g_highest_address w /\
  g_ephemeral_low (world_of r) = g_ephemeral_low w /\
  g_ephemeral_high (world_of r) = g_ephemeral_high w /\
  g_card_table (world_of r) = g_card_table w /\
  gc_state (world_of r) = gc_state w /\
  ref_mem (world_of r) = upd (ref_mem w) dst ref /\
  (forall a, byte_mem (world_of r) a =
             if needs_card w dst ref && (a =? card_address w dst)
             then 255 else byte_mem w a) /\
  slow_calls (trace_of r) = [].
Proof.
  intros r. subst r. rewrite WriteBarrier_run. cbn zeta.
  set (w0 := with_ref_mem w (upd (ref_mem w) dst ref)).
  assert (Hcond : needs_card w0 dst ref = needs_card w dst ref) by reflexivity.
  assert (Haddr : card_address w0 dst = card_address w dst) by reflexivity.
  destruct (ErectWriteBarrier_paths w0 dst ref)
    as [Hout E|Hin Hold E|Hin Hyoung Hcard E|Hin Hyoung Hcard E];
    rewrite E; cbn [world_of trace_of fst snd]; rewrite <- Hcond, <- Haddr.
  - assert (Hno : needs_card w0 dst ref = false)
      by (apply needs_card_false; tauto).
    rewrite Hno. cbn. repeat split.
  - assert (Hno : needs_card w0 dst ref = false)
      by (apply needs_card_false; tauto).
    rewrite Hno. cbn. repeat split.
  - assert (Hyes : needs_card w0 dst ref = true)
      by (apply needs_card_true; tauto).
    rewrite Hyes. cbn. repeat split. intros a.
    destruct (Z.eqb_spec a (card_address w0 dst)) as [->|_];
      [exact Hcard|reflexivity].
  - assert (Hyes : needs_card w0 dst ref = true)
      by (apply needs_card_true; tauto).
    rewrite Hyes. cbn. repeat split.
Qed.

(** The barrier's tests read the globals only. *)
Lemma needs_card_globals w w' dst ref :
  g_lowest_address w' = g_lowest_address w ->
  g_highest_address w' = g_highest_address w ->
  g_ephemeral_low w' = g_ephemeral_low w ->
  g_ephemeral_high w' = g_ephemeral_high w ->
  needs_card w' dst ref = needs_card w dst ref.
Proof. intros H1 H2 H3 H4. unfold needs_card. now rewrite H1, H2, H3, H4. Qed.

Lemma card_address_globals w w' dst :
  g_card_table w' = g_card_table w ->
  card_address w' dst = card_address w dst.
Proof. intros H. unfold card_address. now rewrite H. Qed.

Lemma card_byte_div (a : Z) : card_byte a = a / 2 ^ card_byte_shift.
Proof.
  unfold card_byte. apply Z.shiftr_div_pow2.
  unfold card_byte_shift. destruct WIN64; lia.
Qed.

(** ** The card table under the barrier *)

(** X1.  A card covers one aligned block of [2 ^ card_byte_shift] bytes:
    the card index of an address is [k] exactly when the address lies in
    [[k * 2^shift, (k + 1) * 2^shift)]. *)
Theorem card_byte_block (a k : Z) :
  card_byte a = k <->
  k * 2 ^ card_byte_shift <= a < (k + 1) * 2 ^ card_byte_shift.
Proof.
  rewrite card_byte_div.
  assert (Hpos : 0 < 2 ^ card_byte_shift).
  { unfold card_byte_shift. destruct WIN64; reflexivity. }
  set (b := 2 ^ card_byte_shift) in *.
  pose proof (Z.div_mod a b ltac:(lia)) as Hdiv.
  pose proof (Z.mod_pos_bound a b Hpos) as Hmod.
  split.
  - intros <-. nia.
  - intros Hblock. symmetry.
    apply (Z.div_unique a b k (a - k * b)); nia.
Qed.

(** X2.  Storing a reference that is not ephemeral (a reference to an old
    object, or null when the ephemeral range does not hold 0) marks
    nothing: no card byte is read or written, wherever the field is. *)
Theorem WriteBarrier_not_ephemeral w dst ref :
  ref < g_ephemeral_low w \/ g_ephemeral_high w <= ref ->
  let r := WriteBarrier dst ref w in
  byte_mem (world_of r) = byte_mem w /\
  trace_of r = [EvStoreRef dst ref].
Proof.
  intros Hold r. subst r. rewrite WriteBarrier_run. cbn zeta.
  set (w0 := with_ref_mem w (upd (ref_mem w) dst ref)).
  destruct (ErectWriteBarrier_paths w0 dst ref)
    as [_ E|_ _ E|_ Hyoung _ E|_ Hyoung _ E];
    cbn [w0 with_ref_mem g_ephemeral_low g_ephemeral_high] in *;
    try lia; rewrite E; cbn; split; reflexivity.
Qed.

(** X3.  The barrier never clears a card: a byte that holds 0xFF before
    [WriteBarrier] holds 0xFF after it, and every byte either keeps its
    value or becomes 0xFF. *)
Theorem WriteBarrier_never_clears w dst ref (a : Z) :
  let r := WriteBarrier dst ref w in
  (byte_mem w a = 255 -> byte_mem (world_of r) a = 255) /\
  (byte_mem (world_of r) a = byte_mem w a \/ byte_mem (world_of r) a = 255).
Proof.
  intros r. subst r.
  destruct (WriteBarrier_effect w dst ref) as (_ & _ & _ & _ & _ & _ & _ & _ & Hbytes & _).
  rewrite (Hbytes a).
  destruct (needs_card w dst ref && (a =? card_address w dst)); tauto.
Qed.

(** X4.  The barrier touches no card but the field's own: every byte
    other than the one at [g_card_table + card_byte(dst)] keeps its
    value. *)
Theorem WriteBarrier_only_own_card w dst ref (a : Z) :
  a <> card_address w dst ->
  byte_mem (world_of (WriteBarrier dst ref w)) a = byte_mem w a.
Proof.
  intros Hother.
  destruct (WriteBarrier_effect w dst ref) as (_ & _ & _ & _ & _ & _ & _ & _ & Hbytes & _).
  rewrite (Hbytes a). apply Z.eqb_neq in Hother. rewrite Hother.
  now rewrite andb_false_r.
Qed.

(** X5.  The barrier keeps to itself: it leaves the allocation context,
    the heap bounds, the card table pointer and the collector's state as
    they are, never calls the collector, and writes no pointer-sized cell
    other than the field. *)
Theorem WriteBarrier_frame w dst ref :
  let r := WriteBarrier dst ref w in
  acontext (world_of r) = acontext w /\
  g_lowest_address (world_of r) = g_lowest_address w /\
  g_highest_address (world_of r) = g_highest_address w /\
  g_ephemeral_low (world_of r) = g_ephemeral_low w /\
  g_ephemeral_high (world_of r) = g_ephemeral_high w /\
  g_card_table (world_of r) = g_card_table w /\
  gc_state (world_of r) = gc_state w /\
  slow_calls (trace_of r) = [] /\
  ref_stores (trace_of r) = [(dst, ref)] /\
  (forall a, a <> dst -> ref_mem (world_of r) a = ref_mem w a).
Proof.
  intros r. subst r.
  destruct (WriteBarrier_effect w dst ref)
    as (H1 & H2 & H3 & H4 & H5 & H6 & H7 & Hrefs & _ & Hcalls).
  repeat (split; [assumption|]). split.
  - rewrite WriteBarrier_run. cbn zeta. cbn [trace_of snd].
    destruct (ErectWriteBarrier_frame
                (with_ref_mem w (upd (ref_mem w) dst ref)) dst ref)
      as (_ & Hstores & _).
    change (ref_stores (EvStoreRef dst ref :: ?t))
      with ((dst, ref) :: ref_stores t).
    cbn zeta in Hstores. now rewrite Hstores.
  - intros a Ha. rewrite Hrefs. now apply upd_other.
Qed.

(** X6.  Once a store has marked a card, a later store into any field of
    the same card (same [card_byte]) writes no card byte, whatever
    reference it stores. *)
Theorem WriteBarrier_same_card_no_store w dst ref dst2 ref2 :
  g_lowest_address w <= dst < g_highest_address w ->
  g_ephemeral_low w <= ref < g_ephemeral_high w ->
  card_byte dst2 = card_byte dst ->
  let w1 := world_of (WriteBarrier dst ref w) in
  byte_stores (trace_of (WriteBarrier dst2 ref2 w1)) = [] /\
  byte_mem (world_of (WriteBarrier dst2 ref2 w1)) = byte_mem w1.
Proof.
  intros Hin Hyoung Hsame w1.
  assert (Hmarked : byte_mem w1 (card_address w1 dst2) = 255).
  { destruct (WriteBarrier_effect w dst ref)
      as (_ & _ & _ & _ & _ & Htable & _ & _ & Hbytes & _).
    fold w1 in Htable, Hbytes.
    rewrite (card_address_globals w w1 dst2 Htable).
    rewrite Hbytes.
    assert (Hyes : needs_card w dst ref = true)
      by (apply needs_card_true; tauto).
    unfold card_address. rewrite Hsame, Hyes, Z.eqb_refl. reflexivity. }
  rewrite WriteBarrier_run. cbn zeta.
  set (w2 := with_ref_mem w1 (upd (ref_mem w1) dst2 ref2)).
  destruct (ErectWriteBarrier_paths w2 dst2 ref2)
    as [_ E|_ _ E|_ _ _ E|_ _ Hcard E]; rewrite E; cbn;
    try (split; reflexivity).
  exfalso. apply Hcard. exact Hmarked.
Qed.

(** X7.  Barriers on two different fields commute: carried out in either
    order they leave the same context and globals and the same value in
    every cell. *)
Theorem WriteBarrier_commute w d1 r1 d2 r2 :
  d1 <> d2 ->
  same_state
    (world_of (WriteBarrier d2 r2 (world_of (WriteBarrier d1 r1 w))))
    (world_of (WriteBarrier d1 r1 (world_of (WriteBarrier d2 r2 w)))).
Proof.
  intros Hfields.
  set (wa := world_of (WriteBarrier d1 r1 w)).
  set (wb := world_of (WriteBarrier d2 r2 w)).
  destruct (WriteBarrier_effect w d1 r1)
    as (A1 & A2 & A3 & A4 & A5 & A6 & A7 & Arefs & Abytes & _).
  destruct (WriteBarrier_effect w d2 r2)
    as (B1 & B2 & B3 & B4 & B5 & B6 & B7 & Brefs & Bbytes & _).
  fold wa in A1, A2, A3, A4, A5, A6, A7, Arefs, Abytes.
  fold wb in B1, B2, B3, B4, B5, B6, B7, Brefs, Bbytes.
  destruct (WriteBarrier_effect wa d2 r2)
    as (C1 & C2 & C3 & C4 & C5 & C6 & C7 & Crefs & Cbytes & _).
  destruct (WriteBarrier_effect wb d1 r1)
    as (D1 & D2 & D3 & D4 & D5 & D6 & D7 & Drefs & Dbytes & _).
  unfold same_state. repeat split; try congruence.
  - intros a. rewrite Crefs, Drefs, Arefs, Brefs. unfold upd.
    destruct (Z.eqb_spec a d1), (Z.eqb_spec a d2); congruence.
  - intros a. rewrite Cbytes, Dbytes, Abytes, Bbytes.
    rewrite (needs_card_globals w wa d2 r2 A2 A3 A4 A5).
    rewrite (needs_card_globals w wb d1 r1 B2 B3 B4 B5).
    rewrite (card_address_globals w wa d2 A6).
    rewrite (card_address_globals w wb d1 B6).
    destruct (needs_card w d2 r2 && (a =? card_address w d2)),
             (needs_card w d1 r1 && (a =? card_address w d1)); reflexivity.
Qed.

(** ** The allocator: failure, dispatch, invariant *)

Lemma AllocateObject_slow_calls_length w pMT :
  (length (slow_calls (trace_of (AllocateObject pMT w))) <= 1)%nat.
Proof.
  destruct (Z_le_gt_dec (ptr_add (alloc_ptr (acontext w)) (GetBaseSize pMT))
                        (alloc_limit (acontext w))) as [Hfit|Hover].
  - rewrite AllocateObject_fast by exact Hfit. cbn. lia.
  - rewrite AllocateObject_slow by lia. cbn zeta.
    destruct (fst (Alloc w (GetBaseSize pMT) 0) =? nullptr); cbn; lia.
Qed.

(** X8.  When the region is exhausted and the collector answers
    [nullptr], [AllocateObject] returns [nullptr] and writes no header:
    the call to the collector is all it does, and the state is the one
    the collector left. *)
Theorem AllocateObject_collector_fails w pMT :
  alloc_limit (acontext w) < ptr_add (alloc_ptr (acontext w)) (GetBaseSize pMT) ->
  fst (Alloc w (GetBaseSize pMT) 0) = nullptr ->
  let r := AllocateObject pMT w in
  value_of r = nullptr /\
  world_of r = snd (Alloc w (GetBaseSize pMT) 0) /\
  trace_of r = [EvSlowAlloc (acontext w) (GetBaseSize pMT) 0].
Proof.
  intros Hover Hnull r. subst r.
  rewrite AllocateObject_slow by exact Hover. cbn zeta.
  rewrite Hnull. cbn. repeat split.
Qed.

(** X9.  [AllocateObject] calls the collector at most once, and exactly
    when the pointer sum [alloc_ptr + size], taken modulo the pointer
    width as the code computes it, exceeds [alloc_limit]; the call
    receives the untouched context, the base size and flags 0. *)
Theorem AllocateObject_dispatch w pMT :
  slow_calls (trace_of (AllocateObject pMT w)) =
    if ptr_add (alloc_ptr (acontext w)) (GetBaseSize pMT)
         <=? alloc_limit (acontext w)
    then []
    else [(acontext w, GetBaseSize pMT, 0)].
Proof.
  destruct (Z.leb_spec (ptr_add (alloc_ptr (acontext w)) (GetBaseSize pMT))
                       (alloc_limit (acontext w))) as [Hfit|Hover].
  - rewrite AllocateObject_fast by exact Hfit. reflexivity.
  - rewrite AllocateObject_slow by exact Hover. cbn zeta.
    destruct (fst (Alloc w (GetBaseSize pMT) 0) =? nullptr); reflexivity.
Qed.

(** X10.  Whenever [AllocateObject] completes without calling the
    collector, it returned the old cursor, kept the limit, and left the
    cursor at or below the limit, even when the pointer sum wrapped. *)
Theorem AllocateObject_keeps_cursor_below_limit w pMT :
  let r := AllocateObject pMT w in
  slow_calls (trace_of r) = [] ->
  value_of r = alloc_ptr (acontext w) /\
  alloc_limit (acontext (world_of r)) = alloc_limit (acontext w) /\
  alloc_ptr (acontext (world_of r)) <= alloc_limit (acontext (world_of r)).
Proof.
  intros r. subst r.
  destruct (Z_le_gt_dec (ptr_add (alloc_ptr (acontext w)) (GetBaseSize pMT))
                        (alloc_limit (acontext w))) as [Hfit|Hover].
  - rewrite AllocateObject_fast by exact Hfit. cbn. intros _.
    repeat split. exact Hfit.
  - rewrite AllocateObject_slow by lia. cbn zeta.
    destruct (fst (Alloc w (GetBaseSize pMT) 0) =? nullptr); cbn; discriminate.
Qed.

(** X11.  A request that fills the region exactly ([cursor + size =
    limit]) is still served by the fast path and leaves the region full;
    the next request of a non-zero size that does not wrap goes to the
    collector. *)
Theorem AllocateObject_exact_fit w pMT pMT' :
  in_range (alloc_ptr (acontext w)) ->
  in_range (alloc_limit (acontext w)) ->
  0 <= GetBaseSize pMT ->
  alloc_ptr (acontext w) + GetBaseSize pMT = alloc_limit (acontext w) ->
  0 < GetBaseSize pMT' ->
  alloc_limit (acontext w) + GetBaseSize pMT' < ptr_modulus ->
  let r := AllocateObject pMT w in
  slow_calls (trace_of r) = [] /\
  value_of r = alloc_ptr (acontext w) /\
  alloc_ptr (acontext (world_of r)) = alloc_limit (acontext (world_of r)) /\
  slow_calls (trace_of (AllocateObject pMT' (world_of r)))
    = [(acontext (world_of r), GetBaseSize pMT', 0)].
Proof.
  intros Hptr Hlim Hsize Hexactfit Hsize' Hnowrap r. subst r.
  unfold in_range in Hptr, Hlim.
  assert (Hexact : ptr_add (alloc_ptr (acontext w)) (GetBaseSize pMT)
                   = alloc_limit (acontext w))
    by (rewrite ptr_add_exact; lia).
  rewrite AllocateObject_fast by lia. rewrite Hexact.
  cbn [value_of world_of trace_of fst snd].
  set (w1 := with_ref_mem _ _).
  repeat split.
  assert (Hnext : alloc_limit (acontext w1)
                  < ptr_add (alloc_ptr (acontext w1)) (GetBaseSize pMT')).
  { cbn. rewrite ptr_add_exact; lia. }
  rewrite AllocateObject_slow by exact Hnext. cbn zeta.
  destruct (fst (Alloc w1 (GetBaseSize pMT') 0) =? nullptr); reflexivity.
Qed.

(** ** Sequences of allocations: layout and memory *)

Lemma AllocateObjects_cons_fast w pMT (rest : list MethodTable) :
  ptr_add (alloc_ptr (acontext w)) (GetBaseSize pMT) <= alloc_limit (acontext w) ->
  AllocateObjects (pMT :: rest) w =
    let w1 :=
      with_ref_mem
        (with_acontext w
           (mk_alloc_context (ptr_add (alloc_ptr (acontext w)) (GetBaseSize pMT))
                             (alloc_limit (acontext w))))
        (upd (ref_mem w) (alloc_ptr (acontext w)) (mt_address pMT)) in
    let r1 := AllocateObjects rest w1 in
    (alloc_ptr (acontext w) :: value_of r1, world_of r1,
     EvStoreRef (alloc_ptr (acontext w)) (mt_address pMT) :: trace_of r1).
Proof.
  intros Hfit. cbn [AllocateObjects]. unfold bind, ret.
  rewrite AllocateObject_fast by exact Hfit. cbn zeta.
  destruct (AllocateObjects rest _) as [[ps w2] t2]. cbn.
  now rewrite app_nil_r.
Qed.

Lemma bump_addresses_bounds (sizes : list Z) : forall p i a s,
  Forall (fun s => 0 <= s) sizes ->
  nth_error (bump_addresses p sizes) i = Some a ->
  nth_error sizes i = Some s ->
  p <= a /\ a + s <= p + total_size sizes.
Proof.
  induction sizes as [|s0 rest IH]; intros p i a s Hall Ha Hs.
  - destruct i; discriminate.
  - inversion Hall as [|? ? Hs0 Hrest]; subst.
    pose proof (total_size_nonneg rest Hrest) as Htot.
    cbn [total_size fold_right]. fold (total_size rest).
    destruct i as [|i].
    + cbn in Ha, Hs. injection Ha as <-. injection Hs as <-. lia.
    + cbn [bump_addresses nth_error] in Ha, Hs.
      destruct (IH (p + s0) i a s Hrest Ha Hs). lia.
Qed.

Lemma bump_addresses_apart (sizes : list Z) : forall p i j a s b,
  Forall (fun s => 0 <= s) sizes ->
  (i < j)%nat ->
  nth_error (bump_addresses p sizes) i = Some a ->
  nth_error sizes i = Some s ->
  nth_error (bump_addresses p sizes) j = Some b ->
  a + s <= b.
Proof.
  induction sizes as [|s0 rest IH]; intros p i j a s b Hall Hlt Ha Hs Hb.
  - destruct i; discriminate.
  - inversion Hall as [|? ? Hs0 Hrest]; subst.
    destruct j as [|j]; [lia|]. cbn [bump_addresses nth_error] in Hb.
    destruct i as [|i].
    + cbn in Ha, Hs. injection Ha as <-. injection Hs as <-.
      pose proof (bump_addresses_lower rest (p + s0) Hrest) as Hlow.
      rewrite Forall_forall in Hlow.
      apply Hlow. eapply nth_error_In. exact Hb.
    + cbn [bump_addresses nth_error] in Ha, Hs.
      apply (IH (p + s0) i j a s b Hrest); [lia|assumption..].
Qed.

Lemma bump_addresses_length (sizes : list Z) : forall p,
  length (bump_addresses p sizes) = length sizes.
Proof.
  induction sizes as [|s rest IH]; intros p; cbn; [reflexivity|].
  now rewrite IH.
Qed.

(** X12.  The objects of a sequence of allocations that starts from a
    non-null cursor and fits the region lie inside it, one after the
    other: every call returns a non-null object, each object
    [[a, a + size)] is within [[cursor, limit)] as they were before the
    sequence, and an earlier object ends at or before the start of every
    later one. *)
Theorem AllocateObjects_inside_region w (pMTs : list MethodTable) :
  in_range (alloc_ptr (acontext w)) ->
  alloc_ptr (acontext w) <> nullptr ->
  in_range (alloc_limit (acontext w)) ->
  Forall (fun pMT => 0 <= GetBaseSize pMT) pMTs ->
  alloc_ptr (acontext w) + total_size (map GetBaseSize pMTs)
    <= alloc_limit (acontext w) ->
  let addresses := value_of (AllocateObjects pMTs w) in
  length addresses = length pMTs /\
  Forall (fun a => a <> nullptr) addresses /\
  (forall i a pMT,
      nth_error addresses i = Some a ->
      nth_error pMTs i = Some pMT ->
      alloc_ptr (acontext w) <= a /\
      a + GetBaseSize pMT <= alloc_limit (acontext w)) /\
  (forall i j a pMT b,
      (i < j)%nat ->
      nth_error addresses i = Some a ->
      nth_error pMTs i = Some pMT ->
      nth_error addresses j = Some b ->
      a + GetBaseSize pMT <= b).
Proof.
  intros Hptr Hnonnull Hlim Hsizes Hfit addresses.
  assert (Hnonneg : Forall (fun s => 0 <= s) (map GetBaseSize pMTs)).
  { apply Forall_map. exact Hsizes. }
  destruct (AllocateObjects_fit pMTs w Hptr Hlim Hnonneg Hfit) as (Hval & _ & _).
  fold addresses in Hval. rewrite Hval. split; [|split; [|split]].
  - rewrite bump_addresses_length. apply length_map.
  - eapply Forall_impl;
      [|apply (bump_addresses_lower _ (alloc_ptr (acontext w)) Hnonneg)].
    cbn. intros a Ha. unfold in_range in Hptr. unfold nullptr in *. lia.
  - intros i a pMT Ha HpMT.
    assert (Hs : nth_error (map GetBaseSize pMTs) i = Some (GetBaseSize pMT))
      by (now apply map_nth_error).
    destruct (bump_addresses_bounds _ _ _ _ _ Hnonneg Ha Hs). lia.
  - intros i j a pMT b Hlt Ha HpMT Hb.
    assert (Hs : nth_error (map GetBaseSize pMTs) i = Some (GetBaseSize pMT))
      by (now apply map_nth_error).
    exact (bump_addresses_apart _ _ _ _ _ _ _ Hnonneg Hlt Ha Hs Hb).
Qed.

(** X13.  A sequence of allocations that fits the region advances the
    cursor by exactly the sum of the sizes, keeps the limit, and never
    calls the collector. *)
Theorem AllocateObjects_consumes_total w (pMTs : list MethodTable) :
  in_range (alloc_ptr (acontext w)) ->
  in_range (alloc_limit (acontext w)) ->
  Forall (fun pMT => 0 <= GetBaseSize pMT) pMTs ->
  alloc_ptr (acontext w) + total_size (map GetBaseSize pMTs)
    <= alloc_limit (acontext w) ->
  let r := AllocateObjects pMTs w in
  alloc_ptr (acontext (world_of r))
    = alloc_ptr (acontext w) + total_size (map GetBaseSize pMTs) /\
  alloc_limit (acontext (world_of r)) = alloc_limit (acontext w) /\
  slow_calls (trace_of r) = [].
Proof.
  intros Hptr Hlim Hsizes Hfit r. subst r.
  assert (Hnonneg : Forall (fun s => 0 <= s) (map GetBaseSize pMTs)).
  { apply Forall_map. exact Hsizes. }
  destruct (AllocateObjects_fit pMTs w Hptr Hlim Hnonneg Hfit)
    as (_ & Hctx & Hcalls).
  rewrite Hctx. cbn. repeat split. exact Hcalls.
Qed.

Lemma AllocateObjects_memory (pMTs : list MethodTable) : forall w,
  in_range (alloc_ptr (acontext w)) ->
  in_range (alloc_limit (acontext w)) ->
  Forall (fun s => 0 < s) (map GetBaseSize pMTs) ->
  alloc_ptr (acontext w) + total_size (map GetBaseSize pMTs)
    <= alloc_limit (acontext w) ->
  (forall a,
      a < alloc_ptr (acontext w) \/
      alloc_ptr (acontext w) + total_size (map GetBaseSize pMTs) <= a ->
      ref_mem (world_of (AllocateObjects pMTs w)) a = ref_mem w a) /\
  (forall i p pMT,
      nth_error (value_of (AllocateObjects pMTs w)) i = Some p ->
      nth_error pMTs i = Some pMT ->
      ref_mem (world_of (AllocateObjects pMTs w)) p = mt_address pMT) /\
  byte_mem (world_of (AllocateObjects pMTs w)) = byte_mem w.
Proof.
  induction pMTs as [|pMT rest IH]; intros w Hptr Hlim Hall Hfit.
  - cbn. repeat split. intros [|i] p pMT Hp; discriminate.
  - assert (Htotal : total_size (map GetBaseSize (pMT :: rest))
                     = GetBaseSize pMT + total_size (map GetBaseSize rest))
      by reflexivity.
    rewrite Htotal in *. clear Htotal.
    cbn [map] in Hall. inversion Hall as [|? ? Hs Hrest]; subst.
    assert (Hnonneg : Forall (fun s => 0 <= s) (map GetBaseSize rest)).
    { eapply Forall_impl; [|exact Hrest]. cbn. intros s Hpos. lia. }
    pose proof (total_size_nonneg _ Hnonneg) as Htot.
    unfold in_range in Hptr, Hlim.
    assert (Hexact : ptr_add (alloc_ptr (acontext w)) (GetBaseSize pMT)
                     = alloc_ptr (acontext w) + GetBaseSize pMT)
      by (apply ptr_add_exact; lia).
    rewrite AllocateObjects_cons_fast by lia. rewrite Hexact. cbn zeta.
    set (w1 := with_ref_mem _ _).
    cbn [value_of world_of fst snd].
    destruct (IH w1) as (Hframe & Hheaders & Hbytes);
      [unfold in_range; cbn; lia|unfold in_range; cbn; lia|exact Hrest|cbn; lia|].
    cbn [w1 with_ref_mem with_acontext acontext alloc_ptr ref_mem byte_mem]
      in Hframe, Hbytes.
    split; [|split].
    + intros a Ha. rewrite Hframe by lia. apply upd_other. lia.
    + intros [|i] p pMT' Hp HpMT'.
      * cbn in Hp, HpMT'. injection Hp as <-. injection HpMT' as <-.
        rewrite Hframe by lia. apply upd_same.
      * cbn [nth_error] in Hp, HpMT'. exact (Hheaders i p pMT' Hp HpMT').
    + exact Hbytes.
Qed.

Lemma ptr_bytes_pos : 0 < ptr_bytes.
Proof. unfold ptr_bytes, ptr_bits. destruct WIN64; reflexivity. Qed.

(** X14.  After a sequence of allocations that starts from a non-null
    cursor, fits the region and whose sizes each leave room for a header
    (at least one pointer), the header words of the objects are non-null,
    lie in the consumed part of the region and do not overlap one
    another; every object still has its own descriptor in its header; the
    pointer-sized cells that do not overlap the consumed part are as
    before; and the card table is untouched. *)
Theorem AllocateObjects_headers_survive w (pMTs : list MethodTable) :
  in_range (alloc_ptr (acontext w)) ->
  alloc_ptr (acontext w) <> nullptr ->
  in_range (alloc_limit (acontext w)) ->
  Forall (fun pMT => ptr_bytes <= GetBaseSize pMT) pMTs ->
  alloc_ptr (acontext w) + total_size (map GetBaseSize pMTs)
    <= alloc_limit (acontext w) ->
  let r := AllocateObjects pMTs w in
  (forall i p,
      nth_error (value_of r) i = Some p ->
      p <> nullptr /\
      alloc_ptr (acontext w) <= p /\
      p + ptr_bytes
        <= alloc_ptr (acontext w) + total_size (map GetBaseSize pMTs)) /\
  (forall i j p q,
      (i < j)%nat ->
      nth_error (value_of r) i = Some p ->
      nth_error (value_of r) j = Some q ->
      p + ptr_bytes <= q) /\
  (forall i p pMT,
      nth_error (value_of r) i = Some p ->
      nth_error pMTs i = Some pMT ->
      ref_mem (world_of r) p = mt_address pMT) /\
  (forall a,
      a + ptr_bytes <= alloc_ptr (acontext w) \/
      alloc_ptr (acontext w) + total_size (map GetBaseSize pMTs) <= a ->
      ref_mem (world_of r) a = ref_mem w a) /\
  byte_mem (world_of r) = byte_mem w.
Proof.
  intros Hptr Hnonnull Hlim Hroom Hfit r. subst r.
  pose proof ptr_bytes_pos as Hword.
  assert (Hsizes : Forall (fun s => ptr_bytes <= s) (map GetBaseSize pMTs)).
  { apply Forall_map. exact Hroom. }
  assert (Hpos : Forall (fun s => 0 < s) (map GetBaseSize pMTs)).
  { eapply Forall_impl; [|exact Hsizes]. cbn. intros s Hs. lia. }
  assert (Hnonneg : Forall (fun s => 0 <= s) (map GetBaseSize pMTs)).
  { eapply Forall_impl; [|exact Hsizes]. cbn. intros s Hs. lia. }
  destruct (AllocateObjects_memory pMTs w Hptr Hlim Hpos Hfit)
    as (Hframe & Hheaders & Hbytes).
  destruct (AllocateObjects_fit pMTs w Hptr Hlim Hnonneg Hfit) as (Hval & _ & _).
  assert (Hsize_at : forall i p,
             nth_error (value_of (AllocateObjects pMTs w)) i = Some p ->
             exists s, nth_error (map GetBaseSize pMTs) i = Some s /\
                       ptr_bytes <= s).
  { intros i p Hp.
    assert (Hi : (i < length (map GetBaseSize pMTs))%nat).
    { rewrite <- (bump_addresses_length _ (alloc_ptr (acontext w))), <- Hval.
      apply nth_error_Some. congruence. }
    destruct (nth_error (map GetBaseSize pMTs) i) as [s|] eqn:Hs;
      [|apply nth_error_Some in Hi; contradiction].
    exists s. split; [reflexivity|].
    rewrite Forall_forall in Hsizes. apply Hsizes.
    eapply nth_error_In. exact Hs. }
  split; [|split; [|split; [|split]]].
  - intros i p Hp. destruct (Hsize_at i p Hp) as (s & Hs & Hroom_s).
    rewrite Hval in Hp.
    destruct (bump_addresses_bounds _ _ _ _ _ Hnonneg Hp Hs).
    unfold in_range in Hptr. unfold nullptr in *. lia.
  - intros i j p q Hlt Hp Hq.
    destruct (Hsize_at i p Hp) as (s & Hs & Hroom_s).
    rewrite Hval in Hp, Hq.
    pose proof (bump_addresses_apart _ _ _ _ _ _ _ Hnonneg Hlt Hp Hs Hq). lia.
  - exact Hheaders.
  - intros a Ha. apply Hframe. lia.
  - exact Hbytes.
Qed.

(** ** The loop of [main] *)

Lemma slow_calls_app (t1 t2 : list event) :
  slow_calls (t1 ++ t2) = slow_calls t1 ++ slow_calls t2.
Proof. unfold slow_calls. apply flat_map_app. Qed.

Lemma main_loop_body_run (oh offset : Z) pMT w :
  main_loop_body oh offset pMT w =
    let a := AllocateObject pMT w in
    if value_of a =? nullptr then (Some (-1), world_of a, trace_of a)
    else
      let b := WriteBarrier (ptr_add (ObjectFromHandle (world_of a) oh) offset)
                            (value_of a) (world_of a) in
      (None, world_of b, trace_of a ++ trace_of b).
Proof.
  unfold main_loop_body, bind, read, ret.
  destruct (AllocateObject pMT w) as [[p w1] t1].
  cbn [value_of world_of trace_of fst snd].
  destruct (p =? nullptr).
  - now rewrite app_nil_r.
  - cbn zeta.
    destruct (WriteBarrier (ptr_add (ObjectFromHandle w1 oh) offset) p w1)
      as [[[] w2] t2].
    cbn. now rewrite app_nil_r.
Qed.

Lemma main_loop_step (n : nat) (oh offset : Z) pMT w :
  main_loop (S n) oh offset pMT w =
    let turn := main_loop_body oh offset pMT w in
    match value_of turn with
    | Some code => (Some code, world_of turn, trace_of turn)
    | None =>
        let later := main_loop n oh offset pMT (world_of turn) in
        (value_of later, world_of later, trace_of turn ++ trace_of later)
    end.
Proof.
  cbn [main_loop]. unfold bind, ret.
  destruct (main_loop_body oh offset pMT w) as [[[code|] w1] t1];
    cbn [value_of world_of trace_of fst snd].
  - now rewrite app_nil_r.
  - now destruct (main_loop n oh offset pMT w1) as [[v w2] t2].
Qed.

(** X15.  When an allocation of the loop fails ([AllocateObject] returns
    [nullptr]), [main] returns -1 at once: the barrier is not run, no
    later turn of the loop is, and the state and the trace are those of
    the failed allocation. *)
Theorem main_loop_stops_on_failure (n : nat) (oh offset : Z) pMT w :
  value_of (AllocateObject pMT w) = nullptr ->
  main_loop (S n) oh offset pMT w =
    (Some (-1), world_of (AllocateObject pMT w),
     trace_of (AllocateObject pMT w)).
Proof.
  intros Hnull. rewrite main_loop_step, main_loop_body_run. cbn zeta.
  rewrite Hnull. reflexivity.
Qed.

(** X16.  When the allocation of a turn succeeds, the turn goes on to
    the barrier and the loop continues: the field [m_pOther] of the
    object the handle refers to after the allocation holds the new
    object, and its card is marked if the field lies in the heap and the
    new object is ephemeral. *)
Theorem main_loop_body_links (oh offset : Z) pMT w :
  let a := AllocateObject pMT w in
  let dst := ptr_add (ObjectFromHandle (world_of a) oh) offset in
  let r := main_loop_body oh offset pMT w in
  value_of a <> nullptr ->
  value_of r = None /\
  ref_mem (world_of r) dst = value_of a /\
  (needs_card (world_of a) dst (value_of a) = true ->
   byte_mem (world_of r) (card_address (world_of a) dst) = 255) /\
  trace_of r = trace_of a ++ trace_of (WriteBarrier dst (value_of a) (world_of a)).
Proof.
  intros a dst r Hobject. subst r.
  rewrite main_loop_body_run. fold a. cbn zeta.
  apply Z.eqb_neq in Hobject. rewrite Hobject. fold dst.
  cbn [value_of world_of trace_of fst snd].
  destruct (WriteBarrier_effect (world_of a) dst (value_of a))
    as (_ & _ & _ & _ & _ & _ & _ & Hrefs & Hbytes & _).
  repeat split.
  - rewrite Hrefs. apply upd_same.
  - intros Hneeds. rewrite Hbytes, Hneeds, Z.eqb_refl. reflexivity.
Qed.

(** X17.  A loop of [n] turns calls the collector at most [n] times, and
    it either runs to its end or ends [main] with -1. *)
Theorem main_loop_slow_calls_bound (n : nat) (oh offset : Z) pMT w :
  let r := main_loop n oh offset pMT w in
  (length (slow_calls (trace_of r)) <= n)%nat /\
  (value_of r = None \/ value_of r = Some (-1)).
Proof.
  revert w. induction n as [|n IH]; intros w r; subst r.
  - cbn. split; [lia|now left].
  - rewrite main_loop_step, main_loop_body_run. cbn zeta.
    pose proof (AllocateObject_slow_calls_length w pMT) as Hone.
    set (a := AllocateObject pMT w) in *.
    destruct (value_of a =? nullptr);
      cbn [value_of world_of trace_of fst snd].
    + split; [lia|now right].
    + set (b := WriteBarrier _ _ _).
      destruct (WriteBarrier_effect (world_of a)
                  (ptr_add (ObjectFromHandle (world_of a) oh) offset)
                  (value_of a))
        as (_ & _ & _ & _ & _ & _ & _ & _ & _ & Hnone).
      fold b in Hnone.
      destruct (IH (world_of b)) as (Hbound & Hvalue).
      split; [|exact Hvalue].
      rewrite !slow_calls_app, !length_app, Hnone. cbn [length]. lia.
Qed.

End MoreProperties.

(** * Instances of the further properties *)

(** A reference to an old object (0x10040) stored into an old object. *)
Lemma WriteBarrier_not_ephemeral_witness :
  let w := sample_world 4096 8192 0 tt in
  let r := @WriteBarrier win64_build unit 65544 65600 w in
  (65600 < g_ephemeral_low w \/ g_ephemeral_high w <= 65600) /\
  byte_mem (world_of r) = byte_mem w /\
  trace_of r = [EvStoreRef 65544 65600].
Proof.
  intros w r. split; [left; cbn; lia|].
  apply (WriteBarrier_not_ephemeral (cfg := win64_build) w 65544 65600).
  left. cbn. lia.
Defined.

(** The byte next to the card of the field keeps its value. *)
Lemma WriteBarrier_only_own_card_witness :
  let w := sample_world 4096 8192 0 tt in
  2097185 <> @card_address win64_build unit w 65544 /\
  byte_mem (world_of (@WriteBarrier win64_build unit 65544 524352 w)) 2097185
    = byte_mem w 2097185.
Proof.
  intros w.
  assert (Hother : 2097185 <> @card_address win64_build unit w 65544)
    by (vm_compute; discriminate).
  split; [exact Hother|].
  exact (WriteBarrier_only_own_card (cfg := win64_build) w 65544 524352
           2097185 Hother).
Defined.

(** Two fields of the same object, hence of the same card. *)
Lemma WriteBarrier_same_card_no_store_witness :
  let w := sample_world 4096 8192 0 tt in
  let w1 := world_of (@WriteBarrier win64_build unit 65544 524352 w) in
  (g_lowest_address w <= 65544 < g_highest_address w /\
   g_ephemeral_low w <= 524352 < g_ephemeral_high w /\
   @card_byte win64_build 65552 = @card_byte win64_build 65544) /\
  byte_stores (trace_of (@WriteBarrier win64_build unit 65552 524416 w1)) = [] /\
  byte_mem (world_of (@WriteBarrier win64_build unit 65552 524416 w1))
    = byte_mem w1.
Proof.
  intros w w1. split; [cbn; repeat split; lia|].
  apply (WriteBarrier_same_card_no_store (cfg := win64_build)
           w 65544 524352 65552 524416); cbn; lia.
Defined.

Lemma WriteBarrier_commute_witness :
  let w := sample_world 4096 8192 0 tt in
  65544 <> 69640 /\
  same_state
    (world_of (@WriteBarrier win64_build unit 69640 65600
                 (world_of (@WriteBarrier win64_build unit 65544 524352 w))))
    (world_of (@WriteBarrier win64_build unit 65544 524352
                 (world_of (@WriteBarrier win64_build unit 69640 65600 w)))).
Proof.
  intros w.
  assert (Hfields : 65544 <> 69640) by lia.
  split; [exact Hfields|].
  exact (WriteBarrier_commute (cfg := win64_build) w 65544 524352 69640 65600
           Hfields).
Defined.

(** The first allocation of [main] with a collector out of memory. *)
Lemma AllocateObject_collector_fails_witness :
  let w := sample_world 0 0 0 tt in
  let pMT := My_MethodTable 8 in
  let r := @AllocateObject win64_build unit exhausted_heap pMT w in
  (alloc_limit (acontext w)
     < @ptr_add win64_build (alloc_ptr (acontext w)) (GetBaseSize pMT) /\
   fst (@Alloc unit exhausted_heap w (GetBaseSize pMT) 0) = nullptr) /\
  value_of r = nullptr /\
  world_of r = w /\
  trace_of r = [EvSlowAlloc (mk_alloc_context 0 0) 24 0].
Proof.
  intros w pMT r. split; [split; [vm_compute|]; reflexivity|].
  apply (AllocateObject_collector_fails (cfg := win64_build)
           (heap := exhausted_heap) w pMT); [vm_compute|]; reflexivity.
Defined.

(** The wrapped request on a 32-bit build: the fast path left the cursor
    at 0x1000, below the limit. *)
Lemma AllocateObject_keeps_cursor_below_limit_witness :
  let w := sample_world 4294963200 4294965248 0 tt in
  let pMT := sized_MethodTable 8192 in
  let r := @AllocateObject x86_build unit exhausted_heap pMT w in
  slow_calls (trace_of r) = [] /\
  value_of r = 4294963200 /\
  alloc_limit (acontext (world_of r)) = 4294965248 /\
  alloc_ptr (acontext (world_of r)) <= alloc_limit (acontext (world_of r)).
Proof.
  intros w pMT r.
  assert (Hnone : slow_calls (trace_of r) = []) by reflexivity.
  split; [exact Hnone|].
  exact (AllocateObject_keeps_cursor_below_limit (cfg := x86_build)
           (heap := exhausted_heap) w pMT Hnone).
Defined.

(** A region of 24 bytes, an object of 24 bytes, then one of 16. *)
Lemma AllocateObject_exact_fit_witness :
  let w := sample_world 4096 4120 0 65536 in
  let pMT := My_MethodTable 8 in
  let pMT' := sized_MethodTable 16 in
  let r := @AllocateObject win64_build Z region_heap pMT w in
  (@in_range win64_build 4096 /\ @in_range win64_build 4120 /\
   0 <= 24 /\ 4096 + 24 = 4120 /\ 0 < 16 /\
   4120 + 16 < @ptr_modulus win64_build) /\
  slow_calls (trace_of r) = [] /\
  value_of r = 4096 /\
  alloc_ptr (acontext (world_of r)) = alloc_limit (acontext (world_of r)) /\
  slow_calls (trace_of (@AllocateObject win64_build Z region_heap pMT' (world_of r)))
    = [(mk_alloc_context 4120 4120, 16, 0)].
Proof.
  intros w pMT pMT' r. split; [word_facts|].
  apply (AllocateObject_exact_fit (cfg := win64_build) (heap := region_heap)
           w pMT pMT'); word_facts.
Defined.

(** Three objects of 24, 0 and 40 bytes from a region [[4096, 8192)]. *)
Lemma AllocateObjects_inside_region_witness :
  let w := sample_world 4096 8192 0 tt in
  let pMTs := [sized_MethodTable 24; sized_MethodTable 0; sized_MethodTable 40] in
  let addresses :=
    value_of (@AllocateObjects win64_build unit exhausted_heap pMTs w) in
  (@in_range win64_build 4096 /\ 4096 <> nullptr /\
   @in_range win64_build 8192 /\
   Forall (fun pMT => 0 <= GetBaseSize pMT) pMTs /\
   4096 + total_size (map GetBaseSize pMTs) <= 8192) /\
  length addresses = length pMTs /\
  Forall (fun a => a <> nullptr) addresses /\
  (forall i a pMT,
      nth_error addresses i = Some a ->
      nth_error pMTs i = Some pMT ->
      4096 <= a /\ a + GetBaseSize pMT <= 8192) /\
  (forall i j a pMT b,
      (i < j)%nat ->
      nth_error addresses i = Some a ->
      nth_error pMTs i = Some pMT ->
      nth_error addresses j = Some b ->
      a + GetBaseSize pMT <= b).
Proof.
  intros w pMTs addresses.
  assert (Hnonnull : 4096 <> nullptr) by (unfold nullptr; lia).
  assert (Hsizes : Forall (fun pMT => 0 <= GetBaseSize pMT) pMTs).
  { repeat constructor; cbn; lia. }
  split;
    [split; [word_facts|split; [exact Hnonnull|split;
       [word_facts|split; [exact Hsizes|cbn; lia]]]]|].
  apply (AllocateObjects_inside_region (cfg := win64_build)
           (heap := exhausted_heap) w pMTs);
    [word_facts|exact Hnonnull|word_facts|exact Hsizes|cbn; lia].
Defined.

Lemma AllocateObjects_consumes_total_witness :
  let w := sample_world 4096 8192 0 tt in
  let pMTs := [sized_MethodTable 24; sized_MethodTable 0; sized_MethodTable 40] in
  let r := @AllocateObjects win64_build unit exhausted_heap pMTs w in
  (@in_range win64_build 4096 /\ @in_range win64_build 8192 /\
   Forall (fun pMT => 0 <= GetBaseSize pMT) pMTs /\
   4096 + total_size (map GetBaseSize pMTs) <= 8192) /\
  alloc_ptr (acontext (world_of r)) = 4096 + 64 /\
  alloc_limit (acontext (world_of r)) = 8192 /\
  slow_calls (trace_of r) = [].
Proof.
  intros w pMTs r.
  assert (Hsizes : Forall (fun pMT => 0 <= GetBaseSize pMT) pMTs).
  { repeat constructor; cbn; lia. }
  split; [split; [word_facts|split; [word_facts|split; [exact Hsizes|cbn; lia]]]|].
  apply (AllocateObjects_consumes_total (cfg := win64_build)
           (heap := exhausted_heap) w pMTs);
    [word_facts|word_facts|exact Hsizes|cbn; lia].
Defined.

(** Two objects with different descriptors, of 24 and 16 bytes. *)
Lemma AllocateObjects_headers_survive_witness :
  let w := sample_world 4096 8192 0 tt in
  let pMTs := [mk_MethodTable 12288 24 0 0; mk_MethodTable 12320 16 0 0] in
  let r := @AllocateObjects win64_build unit exhausted_heap pMTs w in
  (@in_range win64_build 4096 /\ 4096 <> nullptr /\
   @in_range win64_build 8192 /\
   Forall (fun pMT => @ptr_bytes win64_build <= GetBaseSize pMT) pMTs /\
   4096 + total_size (map GetBaseSize pMTs) <= 8192) /\
  value_of r = [4096; 4120] /\
  ref_mem (world_of r) 4096 = 12288 /\
  ref_mem (world_of r) 4120 = 12320 /\
  (forall i j p q,
      (i < j)%nat ->
      nth_error (value_of r) i = Some p ->
      nth_error (value_of r) j = Some q ->
      p + 8 <= q) /\
  (forall a,
      a + 8 <= 4096 \/ 4096 + 40 <= a ->
      ref_mem (world_of r) a = ref_mem w a) /\
  byte_mem (world_of r) = byte_mem w.
Proof.
  intros w pMTs r.
  assert (Hnonnull : 4096 <> nullptr) by (unfold nullptr; lia).
  assert (Hroom : Forall (fun pMT => @ptr_bytes win64_build <= GetBaseSize pMT)
                         pMTs).
  { repeat constructor; vm_compute; discriminate. }
  assert (Hrange : @in_range win64_build 4096 /\ @in_range win64_build 8192)
    by word_facts.
  assert (Hfit : 4096 + total_size (map GetBaseSize pMTs) <= 8192)
    by (cbn; lia).
  split; [tauto|].
  destruct (AllocateObjects_headers_survive (cfg := win64_build)
              (heap := exhausted_heap) w pMTs
              (proj1 Hrange) Hnonnull (proj2 Hrange) Hroom Hfit)
    as (_ & Hapart & Hheaders & Hframe & Hbytes).
  split; [reflexivity|].
  split; [exact (Hheaders 0%nat 4096 _ eq_refl eq_refl)|].
  split; [exact (Hheaders 1%nat 4120 _ eq_refl eq_refl)|].
  split; [exact Hapart|]. split; [exact Hframe|exact Hbytes].
Defined.

(** The loop of [main] on a fresh context with a collector out of
    memory: the first turn ends [main]. *)
Lemma main_loop_stops_on_failure_witness :
  let w := sample_world 0 0 0 tt in
  let pMT := My_MethodTable 8 in
  value_of (@AllocateObject win64_build unit exhausted_heap pMT w) = nullptr /\
  @main_loop win64_build unit exhausted_heap cell_handles 3 256 8 pMT w
    = (Some (-1), w, [EvSlowAlloc (mk_alloc_context 0 0) 24 0]).
Proof.
  intros w pMT.
  assert (Hnull : value_of (@AllocateObject win64_build unit exhausted_heap pMT w)
                  = nullptr) by reflexivity.
  split; [exact Hnull|].
  exact (main_loop_stops_on_failure (cfg := win64_build)
           (heap := exhausted_heap) (handles := cell_handles)
           2 256 8 pMT w Hnull).
Defined.

(** One turn of the loop: the new object 0x80000 is stored into the field
    at 0x10008 of the old object, whose card 32 gets marked. *)
Lemma main_loop_body_links_witness :
  let w := linked_world tt in
  let pMT := My_MethodTable 8 in
  let r := @main_loop_body win64_build unit exhausted_heap cell_handles
             256 8 pMT w in
  value_of (@AllocateObject win64_build unit exhausted_heap pMT w) <> nullptr /\
  value_of r = None /\
  ref_mem (world_of r) 65544 = 524288 /\
  byte_mem (world_of r) 2097184 = 255 /\
  trace_of r = [EvStoreRef 524288 12288; EvStoreRef 65544 524288;
                EvLoadByte 2097184; EvStoreByte 2097184 255].
Proof.
  intros w pMT r.
  assert (Hobject : value_of (@AllocateObject win64_build unit exhausted_heap pMT w)
                    <> nullptr) by (vm_compute; discriminate).
  split; [exact Hobject|].
  destruct (main_loop_body_links (cfg := win64_build) (heap := exhausted_heap)
              (handles := cell_handles) 256 8 pMT w Hobject)
    as (Hgoes_on & Hfield & Hcard & Htrace).
  split; [exact Hgoes_on|]. split; [exact Hfield|].
  split; [exact (Hcard eq_refl)|exact Htrace].
Defined.
